(** * adafruit_fona_socket: a socket layer over the FONA cellular modem

    A shallow embedding of [adafruit_fona/adafruit_fona_socket.py] and the
    properties of its receive logic, its error paths and its slot registry.

    Conventions of the embedding.
    - Python integers are unbounded: they are [Z], and the bit operators
      are [Z.shiftl], [Z.shiftr], [Z.land] and [Z.lor].
    - [bytes] values are lists of [Byte.byte].
    - The readings of [time.monotonic()] and the socket timeout are
      rationals ([Q]): a float is given by its exact value, so that the
      comparisons of the source are the comparisons of [Q].  The
      subtraction of two readings is the one of the floats of the
      interpreter, which rounds: it is a parameter, [float_sub].
    - The hardware interface [_the_interface] is not part of the module.
      It is a parameter: a type of interface states with one function per
      primitive the module calls.  Every call is recorded, with its
      answer, in a trace, so that statements can count calls.
    - [gc.collect()] has no observable effect and is left out.
    - The [while] loops take a bound on the number of iterations of their
      body; [None] means that the bound was reached, never a result. *)

From Stdlib Require Import ZArith List Bool Lia Ascii String QArith Lqa.
From Stdlib Require Import Strings.Byte.
Import ListNotations.

Local Open Scope Z_scope.

(** ** Byte order helpers (lines 45-57) *)

Definition htonl (x : Z) : Z :=
  Z.lor
    (Z.lor
       (Z.lor (Z.land (Z.shiftl x 24) 0xFF000000)
              (Z.land (Z.shiftl x 8) 0x00FF0000))
       (Z.land (Z.shiftr x 8) 0x0000FF00))
    (Z.land (Z.shiftr x 24) 0x000000FF).

Definition htons (x : Z) : Z :=
  Z.lor (Z.land (Z.shiftl x 8) 0xFF00) (Z.land (Z.shiftr x 8) 0xFF).

(** ** Module constants (lines 61-65) *)

Definition SOCK_STREAM : Z := 0x00.
Definition TCP_MODE : Z := 80.
Definition SOCK_DGRAM : Z := 0x01.
Definition AF_INET : Z := 3.
Definition NO_SOCKET_AVAIL : Z := 255.

(** ** Python values *)

Definition bytes := list byte.

(** The objects that reach the untyped parameters of the module. *)
Inductive pyobj :=
| PyNone
| PyInt (z : Z)
| PyFloat (q : Q)
| PyStr (s : string)
| PyBytes (b : bytes).

(** [isinstance(o, int)] *)
Definition isinstance_int (o : pyobj) : bool :=
  match o with
  | PyInt _ => true
  | _ => false
  end.

(** The exceptions the module raises, with their arguments. *)
Inductive exn :=
| RuntimeError (msg : string) (args : list pyobj)
| AssertionError (msg : string)
| Exception (msg : string)
| ValueError (msg : string).

(** The error of [readline] on a timeout. *)
Definition incomplete : exn :=
  RuntimeError "Didn't receive full response, failing out" [].

Inductive result (A : Type) :=
| Ok (a : A)
| Raise (e : exn).
Arguments Ok {A} a.
Arguments Raise {A} e.

Definition is_raise {A} (r : result A) : bool :=
  match r with
  | Ok _ => false
  | Raise _ => true
  end.

(** *** Operations on [bytes] *)

Definition CR : byte := x0d.
Definition LF : byte := x0a.
Definition CRLF : bytes := [CR; LF].

(** The [bytes] literal with the characters of [s]. *)
Definition bytes_of (s : string) : bytes := list_byte_of_string s.

(** [buf.startswith(p)] *)
Fixpoint startswith (p buf : bytes) : bool :=
  match p, buf with
  | [], _ => true
  | _ :: _, [] => false
  | x :: p', y :: buf' => Byte.eqb x y && startswith p' buf'
  end.

(** [buf.find(sep)]: the index of the leftmost occurrence, if any. *)
Fixpoint bytes_find (sep buf : bytes) : option nat :=
  if startswith sep buf then Some O
  else match buf with
       | [] => None
       | _ :: rest => option_map S (bytes_find sep rest)
       end.

(** [sep in buf] *)
Definition bytes_contains (sep buf : bytes) : bool :=
  match bytes_find sep buf with
  | Some _ => true
  | None => false
  end.

(** [buf.split(sep, 1)], for a separator that is not empty. *)
Definition bytes_split1 (sep buf : bytes) : list bytes :=
  match bytes_find sep buf with
  | Some i => [firstn i buf; skipn (i + List.length sep) buf]
  | None => [buf]
  end.

(** A slice bound [n] of a sequence of length [len], as Python resolves
    it: a negative bound counts from the end. *)
Definition slice_bound (n : Z) (len : nat) : nat :=
  if n <? 0 then Z.to_nat (Z.max 0 (Z.of_nat len + n)) else Z.to_nat n.

(** [buf[:n]] *)
Definition slice_to (buf : bytes) (n : Z) : bytes :=
  firstn (slice_bound n (List.length buf)) buf.

(** [buf[n:]] *)
Definition slice_from (buf : bytes) (n : Z) : bytes :=
  skipn (slice_bound n (List.length buf)) buf.

(** [len(buf)] *)
Definition len (buf : bytes) : Z := Z.of_nat (List.length buf).

(** [s.split(".")] on a [str] *)
Fixpoint split_dots (cur : string) (s : string) : list string :=
  match s with
  | EmptyString => [cur]
  | String c rest =>
      if Ascii.eqb c "."%char then cur :: split_dots EmptyString rest
      else split_dots (cur ++ String c EmptyString)%string rest
  end.

(** ** The hardware interface and the clock

    One function per primitive, over the state [W] of the interface;
    [time_monotonic] is [time.monotonic()], and [float_sub x y] is the
    float [x - y] of the interpreter for two readings of the clock. *)
Class Interface (W : Type) := {
  get_socket : list Z -> W -> Z * W;
  socket_connect : Z -> pyobj -> pyobj -> Z -> W -> bool * W;
  socket_write : Z -> bytes -> W -> W;
  socket_read : Z -> Z -> W -> bytes * W;
  socket_available : Z -> W -> Z * W;
  socket_status : Z -> W -> bool * W;
  socket_close : Z -> W -> bool * W;
  remote_ip : Z -> W -> pyobj * W;
  get_host_by_name : pyobj -> W -> pyobj * W;
  time_monotonic : W -> Q * W;
  float_sub : Q -> Q -> Q
}.

(** A call of a primitive, with its arguments and its answer. *)
Inductive Event :=
| Call_get_socket (sockets : list Z) (ret : Z)
| Call_socket_connect (sock : Z) (host port : pyobj) (conn_mode : Z) (ret : bool)
| Call_socket_write (sock : Z) (data : bytes)
| Call_socket_read (sock : Z) (n : Z) (ret : bytes)
| Call_socket_available (sock : Z) (ret : Z)
| Call_socket_status (sock : Z) (ret : bool)
| Call_socket_close (sock : Z) (ret : bool)
| Call_remote_ip (sock : Z) (ret : pyobj)
| Call_get_host_by_name (host : pyobj) (ret : pyobj)
| Call_monotonic (ret : Q).

Definition is_available (e : Event) : bool :=
  match e with Call_socket_available _ _ => true | _ => false end.
Definition is_read (e : Event) : bool :=
  match e with Call_socket_read _ _ _ => true | _ => false end.
Definition is_connect (e : Event) : bool :=
  match e with Call_socket_connect _ _ _ _ _ => true | _ => false end.
Definition is_monotonic (e : Event) : bool :=
  match e with Call_monotonic _ => true | _ => false end.
Definition is_close (e : Event) : bool :=
  match e with Call_socket_close _ _ => true | _ => false end.
Definition is_close_of (k : Z) (e : Event) : bool :=
  match e with Call_socket_close s _ => s =? k | _ => false end.

(** How many events of a trace satisfy [p]. *)
Definition count (p : Event -> bool) (t : list Event) : nat :=
  List.length (filter p t).

(** The bytes the interface handed over, in order. *)
Fixpoint bytes_read (t : list Event) : bytes :=
  match t with
  | [] => []
  | Call_socket_read _ _ d :: t' => d ++ bytes_read t'
  | _ :: t' => bytes_read t'
  end.

(** The calls a socket on slot [k] makes while it waits for bytes: a
    poll or a read on its own slot, or a reading of the clock. *)
Definition wait_call (k : Z) (e : Event) : bool :=
  match e with
  | Call_socket_available s _ => s =? k
  | Call_socket_read s _ _ => s =? k
  | Call_monotonic _ => true
  | _ => false
  end.

(** The calls a socket on slot [k] may make without touching another
    slot or the pool of slots: the primitives that take a slot, called
    for [k], and the clock. *)
Definition on_slot (k : Z) (e : Event) : bool :=
  match e with
  | Call_socket_connect s _ _ _ _ => s =? k
  | Call_socket_write s _ => s =? k
  | Call_socket_read s _ _ => s =? k
  | Call_socket_available s _ => s =? k
  | Call_socket_status s _ => s =? k
  | Call_socket_close s _ => s =? k
  | Call_remote_ip s _ => s =? k
  | Call_monotonic _ => true
  | Call_get_socket _ _ => false
  | Call_get_host_by_name _ _ => false
  end.

(** The integer a byte stands for. *)
Definition byte_val (b : byte) : Z := Z.of_N (Byte.to_N b).

(** The number of dots of a [str]. *)
Fixpoint dots (s : string) : nat :=
  match s with
  | EmptyString => O
  | String c rest => if Ascii.eqb c "."%char then S (dots rest) else dots rest
  end.

(** The 5-tuple of [getaddrinfo]. *)
Record addrinfo := {
  ai_family : Z;
  ai_socktype : pyobj;
  ai_proto : pyobj;
  ai_canonname : string;
  ai_sockaddr : pyobj * pyobj
}.

(** The attributes of a [socket] object. *)
Record socket := {
  _sock_type : Z;
  _buffer : bytes;
  _timeout : Q;
  _socknum : Z
}.

Definition set_buffer (self : socket) (b : bytes) : socket :=
  {| _sock_type := _sock_type self; _buffer := b;
     _timeout := _timeout self; _socknum := _socknum self |}.

Definition set_timeout (self : socket) (t : Q) : socket :=
  {| _sock_type := _sock_type self; _buffer := _buffer self;
     _timeout := t; _socknum := _socknum self |}.

(** [x > y] and [x < y] on rationals *)
Definition Qgt_bool (x y : Q) : bool := negb (Qle_bool x y).
Definition Qlt_bool (x y : Q) : bool := negb (Qle_bool y x).

(** ** The module *)

Section Module.

Context {W : Type} {iface : Interface W}.

(** [int(s)] on a [str], a builtin of the language: [None] stands for
    its [ValueError]. *)
Variable py_int : string -> option Z.

(** The state of the module: the registry [SOCKETS], the interface
    installed in [_the_interface], and the calls made so far, oldest
    first. *)
Record State := {
  SOCKETS : list Z;
  _the_interface : W;
  trace : list Event
}.

(** The state after a call of a primitive that left the interface in
    [w] and is recorded as [e]. *)
Definition called (st : State) (w : W) (e : Event) : State :=
  {| SOCKETS := SOCKETS st; _the_interface := w; trace := trace st ++ [e] |}.

(** The state [st] after further calls [evs] that left the interface
    in [w]. *)
Definition after (st : State) (w : W) (evs : list Event) : State :=
  {| SOCKETS := SOCKETS st; _the_interface := w; trace := trace st ++ evs |}.

Definition call_get_socket (sockets : list Z) (st : State) : Z * State :=
  let (r, w) := get_socket sockets (_the_interface st) in
  (r, called st w (Call_get_socket sockets r)).

Definition call_socket_connect (sock : Z) (host port : pyobj) (mode : Z)
    (st : State) : bool * State :=
  let (r, w) := socket_connect sock host port mode (_the_interface st) in
  (r, called st w (Call_socket_connect sock host port mode r)).

Definition call_socket_write (sock : Z) (data : bytes) (st : State) : State :=
  called st (socket_write sock data (_the_interface st))
         (Call_socket_write sock data).

Definition call_socket_read (sock : Z) (n : Z) (st : State) : bytes * State :=
  let (r, w) := socket_read sock n (_the_interface st) in
  (r, called st w (Call_socket_read sock n r)).

Definition call_socket_available (sock : Z) (st : State) : Z * State :=
  let (r, w) := socket_available sock (_the_interface st) in
  (r, called st w (Call_socket_available sock r)).

Definition call_socket_status (sock : Z) (st : State) : bool * State :=
  let (r, w) := socket_status sock (_the_interface st) in
  (r, called st w (Call_socket_status sock r)).

Definition call_socket_close (sock : Z) (st : State) : bool * State :=
  let (r, w) := socket_close sock (_the_interface st) in
  (r, called st w (Call_socket_close sock r)).

Definition call_remote_ip (sock : Z) (st : State) : pyobj * State :=
  let (r, w) := remote_ip sock (_the_interface st) in
  (r, called st w (Call_remote_ip sock r)).

Definition call_get_host_by_name (host : pyobj) (st : State) : pyobj * State :=
  let (r, w) := get_host_by_name host (_the_interface st) in
  (r, called st w (Call_get_host_by_name host r)).

Definition call_monotonic (st : State) : Q * State :=
  let (r, w) := time_monotonic (_the_interface st) in
  (r, called st w (Call_monotonic r)).

(** *** Module functions *)

(** [set_interface(iface)] (lines 39-42) *)
Definition set_interface (w : W) (st : State) : State :=
  {| SOCKETS := SOCKETS st; _the_interface := w; trace := trace st |}.

(** [gethostbyname(hostname)] (lines 81-87) *)
Definition gethostbyname (hostname : pyobj) (st : State) : pyobj * State :=
  call_get_host_by_name hostname st.

(** [getaddrinfo(host, port, family, socktype, proto, flags)]
    (lines 72-78) *)
Definition getaddrinfo (host port : pyobj) (family socktype proto flags : pyobj)
    (st : State) : result (list addrinfo) * State :=
  if negb (isinstance_int port) then
    (Raise (RuntimeError "Port must be an integer" []), st)
  else
    let (addr, st1) := gethostbyname host st in
    (Ok [ {| ai_family := AF_INET; ai_socktype := socktype;
             ai_proto := proto; ai_canonname := "";
             ai_sockaddr := (addr, port) |} ], st1).

(** *** The [socket] class *)

(** [settimeout(value)] (lines 230-237) *)
Definition settimeout (self : socket) (value : Q) : result unit * socket :=
  if Qlt_bool value 0%Q then
    (Raise (Exception "Timeout period should be non-negative."), self)
  else (Ok tt, set_timeout self value).

(** [gettimeout()] (lines 239-244) *)
Definition gettimeout (self : socket) : Q := _timeout self.

(** [socket(family, type, proto, fileno, socknum)] (lines 99-110) *)
Definition socket_init (family type : Z) (st : State)
    : result socket * State :=
  if negb (family =? AF_INET) then
    (Raise (RuntimeError
              "Only AF_INET family supported by cellular sockets." []), st)
  else
    let (n, st1) := call_get_socket (SOCKETS st) st in
    let st2 := {| SOCKETS := SOCKETS st1 ++ [n];
                  _the_interface := _the_interface st1;
                  trace := trace st1 |} in
    let self := {| _sock_type := type; _buffer := [];
                   _timeout := 0%Q; _socknum := n |} in
    match settimeout self (_timeout self) with
    | (Ok _, self') => (Ok self', st2)
    | (Raise e, _) => (Raise e, st2)
    end.

(** [socknum] (lines 112-115) *)
Definition socknum (self : socket) : Z := _socknum self.

(** [connected] (lines 117-120) *)
Definition connected (self : socket) (st : State) : bool * State :=
  call_socket_status (socknum self) st.

(** [getpeername()] (lines 122-124) *)
Definition getpeername (self : socket) (st : State) : pyobj * State :=
  call_remote_ip (socknum self) st.

(** [bytearray(l)] raises [ValueError] unless every item is a byte. *)
Fixpoint bytearray (l : list Z) : option bytes :=
  match l with
  | [] => Some []
  | x :: l' =>
      if (0 <=? x) && (x <? 256) then
        match Byte.of_N (Z.to_N x), bytearray l' with
        | Some b, Some bs => Some (b :: bs)
        | _, _ => None
        end
      else None
  end.

(** [[int(item) for item in items]] *)
Fixpoint ints_of (items : list string) : option (list Z) :=
  match items with
  | [] => Some []
  | s :: items' =>
      match py_int s with
      | Some z => option_map (cons z) (ints_of items')
      | None => None
      end
  end.

(** [inet_aton(ip_string)] (lines 126-134).  The result is also left
    in [_buffer].  When [bytearray] raises, the source has left the list
    of integers in [_buffer]; the record has no such value and keeps the
    empty buffer of line 131. *)
Definition inet_aton (self : socket) (ip_string : string)
    : result bytes * socket :=
  let self1 := set_buffer self [] in
  match ints_of (split_dots EmptyString ip_string) with
  | None => (Raise (ValueError "invalid literal for int()"), self1)
  | Some l =>
      match bytearray l with
      | None => (Raise (ValueError "byte must be in range(0, 256)"), self1)
      | Some b => (Ok b, set_buffer self1 b)
      end
  end.

(** [connect(address, conntype)] (lines 136-152).  [address] is the
    sequence that the source unpacks into [host, port]. *)
Definition connect (self : socket) (address : list pyobj)
    (conntype : option Z) (st : State) : result unit * socket * State :=
  if match conntype with Some c => c =? 0x03 | None => false end then
    (Raise (AssertionError
       "Error: SSL/TLS is not currently supported by CircuitPython."),
     self, st)
  else
    match address with
    | [host; port] =>
        let (ok, st1) :=
          call_socket_connect (socknum self) host port (_sock_type self) st in
        if negb ok then
          (Raise (RuntimeError "Failed to connect to host" [host]), self, st1)
        else (Ok tt, set_buffer self [], st1)
    | _ => (Raise (ValueError "wrong number of values to unpack"), self, st)
    end.

(** [send(data)] (lines 154-161) *)
Definition send (self : socket) (data : bytes) (st : State) : State :=
  call_socket_write (_socknum self) data st.

(** [available()] (lines 224-228) *)
Definition available (self : socket) (st : State) : Z * State :=
  call_socket_available (_socknum self) st.

(** [close()] (lines 246-248) *)
Definition close (self : socket) (st : State) : bool * socket * State :=
  let (r, st1) := call_socket_close (_socknum self) st in
  (r, self, st1).

(** *** Receiving *)

(** The loop of drain mode (lines 169-174).  [fuel] bounds the number
    of polls. *)
Fixpoint drain_loop (fuel : nat) (self : socket) (st : State)
    : option (socket * State) :=
  match fuel with
  | O => None
  | S fuel' =>
      let (avail, st1) := available self st in
      if negb (avail =? 0) then
        let (d, st2) := call_socket_read (_socknum self) avail st1 in
        drain_loop fuel' (set_buffer self (_buffer self ++ d)) st2
      else Some (self, st1)
  end.

(** The variables of the loop of bounded mode. *)
Record wait := {
  to_read : Z;
  received : list bytes;
  stamp : Q
}.

(** The loop of bounded mode (lines 184-194). *)
Fixpoint recv_loop (fuel : nat) (self : socket) (v : wait) (st : State)
    : option (wait * State) :=
  if to_read v <=? 0 then Some (v, st)
  else
    match fuel with
    | O => None
    | S fuel' =>
        let (avail, st1) := available self st in
        let '(v1, st2) :=
          if negb (avail =? 0) then
            let (now, sta) := call_monotonic st1 in
            let (recv, stb) :=
              call_socket_read (_socknum self) (Z.min (to_read v) avail) sta in
            ({| to_read := to_read v - len recv;
                received := received v ++ [recv];
                stamp := now |}, stb)
          else (v, st1) in
        if Qgt_bool (_timeout self) 0%Q then
          let (now, st3) := call_monotonic st2 in
          if Qgt_bool (float_sub now (stamp v1)) (_timeout self) then
            Some (v1, st3)
          else recv_loop fuel' self v1 st3
        else recv_loop fuel' self v1 st2
    end.

(** [recv(bufsize)] (lines 163-206) *)
Definition recv (fuel : nat) (self : socket) (bufsize : Z) (st : State)
    : option (bytes * socket * State) :=
  if bufsize =? 0 then
    match drain_loop fuel self st with
    | None => None
    | Some (self1, st1) => Some (_buffer self1, set_buffer self1 [], st1)
    end
  else
    let (now, st0) := call_monotonic st in
    let v := {| to_read := bufsize - len (_buffer self); received := [];
                stamp := now |} in
    match recv_loop fuel self v st0 with
    | None => None
    | Some (v1, st1) =>
        let buf := _buffer self ++ List.concat (received v1) in
        if len buf =? bufsize then Some (buf, set_buffer self [], st1)
        else Some (slice_to buf bufsize,
                   set_buffer self (slice_from buf bufsize), st1)
    end.

(** The loop of [readline] (lines 212-219): the socket with the buffer
    that holds a line, or the error of the timeout. *)
Fixpoint readline_loop (fuel : nat) (self : socket) (stamp : Q) (st : State)
    : option (result unit * socket * State) :=
  if bytes_contains CRLF (_buffer self) then Some (Ok tt, self, st)
  else
    match fuel with
    | O => None
    | S fuel' =>
        let (avail, st1) := available self st in
        if negb (avail =? 0) then
          let (d, st2) := call_socket_read (_socknum self) avail st1 in
          readline_loop fuel' (set_buffer self (_buffer self ++ d)) stamp st2
        else if Qgt_bool (_timeout self) 0%Q then
          let (now, st2) := call_monotonic st1 in
          if Qgt_bool (float_sub now stamp) (_timeout self) then
            let '(_, self1, st3) := close self st2 in
            Some (Raise (RuntimeError
                    "Didn't receive full response, failing out" []),
                  self1, st3)
          else readline_loop fuel' self stamp st2
        else readline_loop fuel' self stamp st1
    end.

(** [readline()] (lines 208-222) *)
Definition readline (fuel : nat) (self : socket) (st : State)
    : option (result bytes * socket * State) :=
  let (stamp, st0) := call_monotonic st in
  match readline_loop fuel self stamp st0 with
  | None => None
  | Some (Raise e, self1, st1) => Some (Raise e, self1, st1)
  | Some (Ok _, self1, st1) =>
      match bytes_split1 CRLF (_buffer self1) with
      | [firstline; rest] => Some (Ok firstline, set_buffer self1 rest, st1)
      | _ => Some (Raise (ValueError "wrong number of values to unpack"),
                   self1, st1)
      end
  end.

(** *** The operations of the module, as a caller invokes them *)

Inductive operation :=
| Op_set_interface (w : W)
| Op_htonl (x : Z)
| Op_htons (x : Z)
| Op_getaddrinfo (host port family socktype proto flags : pyobj)
| Op_gethostbyname (hostname : pyobj)
| Op_socket (family type : Z)
| Op_socknum (self : socket)
| Op_connected (self : socket)
| Op_getpeername (self : socket)
| Op_inet_aton (self : socket) (ip_string : string)
| Op_connect (self : socket) (address : list pyobj) (conntype : option Z)
| Op_send (self : socket) (data : bytes)
| Op_recv (self : socket) (bufsize : Z)
| Op_readline (self : socket)
| Op_available (self : socket)
| Op_settimeout (self : socket) (value : Q)
| Op_gettimeout (self : socket)
| Op_close (self : socket).

(** The module state an operation leaves behind. *)
Definition run (fuel : nat) (o : operation) (st : State) : option State :=
  match o with
  | Op_set_interface w => Some (set_interface w st)
  | Op_htonl _ | Op_htons _ => Some st
  | Op_getaddrinfo host port family socktype proto flags =>
      Some (snd (getaddrinfo host port family socktype proto flags st))
  | Op_gethostbyname h => Some (snd (gethostbyname h st))
  | Op_socket family type => Some (snd (socket_init family type st))
  | Op_socknum _ | Op_inet_aton _ _ | Op_settimeout _ _ | Op_gettimeout _ =>
      Some st
  | Op_connected self => Some (snd (connected self st))
  | Op_getpeername self => Some (snd (getpeername self st))
  | Op_connect self address conntype =>
      Some (snd (connect self address conntype st))
  | Op_send self data => Some (send self data st)
  | Op_recv self bufsize => option_map snd (recv fuel self bufsize st)
  | Op_readline self => option_map snd (readline fuel self st)
  | Op_available self => Some (snd (available self st))
  | Op_close self => Some (snd (close self st))
  end.

(** *** What the interface does while a socket waits

    The premises of the statements about [recv] and [readline] are
    about the interface alone: what it answers when it is polled in
    the order of the loop in question.  They are functions of the
    interface state, and make no use of the module state. *)

(** Drain mode, on slot [k]: [n] polls find bytes, which the reads
    after them hand over, and the poll after them finds none. *)
Fixpoint drained (k : Z) (n : nat) (w : W) : option (list bytes * W) :=
  let (a, w1) := socket_available k w in
  match n with
  | O => if a =? 0 then Some ([], w1) else None
  | S n' =>
      if a =? 0 then None
      else
        let (d, w2) := socket_read k a w1 in
        match drained k n' w2 with
        | Some (ds, w') => Some (d :: ds, w')
        | None => None
        end
  end.

(** Bounded mode with timeout [T], on slot [k], while [need] bytes are
    missing and the last arrival was at [stamp]: within [n] polls the
    interface hands over fewer than [need] bytes, and then the test of
    the loop, made after each poll, finds that the reading of the clock
    minus the reading at the last poll that found bytes is more than
    [T]. *)
Fixpoint starved (k : Z) (T : Q) (n : nat) (need : Z) (stamp : Q) (w : W)
    : option (list bytes * W) :=
  match n with
  | O => None
  | S n' =>
      let (a, w1) := socket_available k w in
      let '(ds, need', stamp', w3) :=
        if negb (a =? 0) then
          let (t, w2) := time_monotonic w1 in
          let (d, w3) := socket_read k (Z.min need a) w2 in
          ([d], need - len d, t, w3)
        else ([], need, stamp, w1) in
      if need' <=? 0 then None
      else
        let (t', w4) := time_monotonic w3 in
        if Qgt_bool (float_sub t' stamp') T then Some (ds, w4)
        else
          match starved k T n' need' stamp' w4 with
          | Some (ds', w') => Some (ds ++ ds', w')
          | None => None
          end
  end.

(** How the wait of [readline] ends. *)
Inductive line_wait :=
| Line (buf : bytes) (w : W)
| Expired (buf : bytes) (w : W).

(** [readline] with timeout [T] on slot [k], started at [stamp] with
    [buf] buffered: within [n] polls either the buffered bytes and the
    bytes handed over hold a CRLF ([Line]), or a poll finds nothing
    while the reading of the clock minus [stamp] is more than [T]
    ([Expired]). *)
Fixpoint awaited (k : Z) (T stamp : Q) (n : nat) (buf : bytes) (w : W)
    : option line_wait :=
  if bytes_contains CRLF buf then Some (Line buf w)
  else
    match n with
    | O => None
    | S n' =>
        let (a, w1) := socket_available k w in
        if negb (a =? 0) then
          let (d, w2) := socket_read k a w1 in
          awaited k T stamp n' (buf ++ d) w2
        else if Qgt_bool T 0%Q then
          let (t, w2) := time_monotonic w1 in
          if Qgt_bool (float_sub t stamp) T then Some (Expired buf w2)
          else awaited k T stamp n' buf w2
        else awaited k T stamp n' buf w1
    end.

(** Bounded mode with timeout [T] (none when [T] is not positive), on
    slot [k], while [need] bytes are missing and the last arrival was
    at [stamp]: within [n] polls the interface hands over [need] bytes
    or more, and no test of the loop before that finds that the reading
    of the clock minus the reading at the last poll that found bytes is
    more than [T]. *)
Fixpoint fed (k : Z) (T : Q) (n : nat) (need : Z) (stamp : Q) (w : W)
    : option (list bytes * W) :=
  match n with
  | O => None
  | S n' =>
      let (a, w1) := socket_available k w in
      if negb (a =? 0) then
        let (t, w2) := time_monotonic w1 in
        let (d, w3) := socket_read k (Z.min need a) w2 in
        if Qgt_bool T 0%Q then
          let (t', w4) := time_monotonic w3 in
          if need - len d <=? 0 then Some ([d], w4)
          else if Qgt_bool (float_sub t' t) T then None
          else
            match fed k T n' (need - len d) t w4 with
            | Some (ds, w') => Some (d :: ds, w')
            | None => None
            end
        else if need - len d <=? 0 then Some ([d], w3)
        else
          match fed k T n' (need - len d) t w3 with
          | Some (ds, w') => Some (d :: ds, w')
          | None => None
          end
      else if Qgt_bool T 0%Q then
        let (t', w4) := time_monotonic w1 in
        if Qgt_bool (float_sub t' stamp) T then None
        else fed k T n' need stamp w4
      else fed k T n' need stamp w1
  end.

(** The socket an operation is a method call of, if it is one that
    calls the interface. *)
Definition target (o : operation) : option socket :=
  match o with
  | Op_connected self | Op_getpeername self | Op_connect self _ _
  | Op_send self _ | Op_recv self _ | Op_readline self | Op_available self
  | Op_close self => Some self
  | _ => None
  end.

End Module.

Arguments State W : clear implicits.

(** ** A simulated modem

    An interface for running the module: one connection, whose bytes
    reach the modem at the times listed in [incoming], oldest first.
    Every primitive takes one second; reading the clock takes none.
    The clock starts at a whole number of seconds, so that its readings
    are small whole numbers, which floats subtract without rounding:
    [float_sub] is the subtraction of [Q]. *)

Record Modem := {
  clock : Q;
  incoming : list (Q * byte);
  max_sockets : nat;
  reachable : bool;
  ip_address : pyobj
}.

Definition tick (m : Modem) : Modem :=
  {| clock := (clock m + 1)%Q; incoming := incoming m;
     max_sockets := max_sockets m; reachable := reachable m;
     ip_address := ip_address m |}.

Definition consume (n : nat) (m : Modem) : Modem :=
  {| clock := clock m; incoming := skipn n (incoming m);
     max_sockets := max_sockets m; reachable := reachable m;
     ip_address := ip_address m |}.

(** The bytes that have reached the modem by time [t]. *)
Fixpoint arrived (t : Q) (l : list (Q * byte)) : bytes :=
  match l with
  | [] => []
  | (t0, b) :: l' => if Qle_bool t0 t then b :: arrived t l' else []
  end.

(** The lowest of the slots [k], ..., [k + n - 1] that is not in use. *)
Fixpoint free_slot (n : nat) (k : Z) (sockets : list Z) : Z :=
  match n with
  | O => NO_SOCKET_AVAIL
  | S n' => if existsb (Z.eqb k) sockets then free_slot n' (k + 1) sockets
            else k
  end.

#[export] Instance modem_interface : Interface Modem := {
  get_socket sockets m :=
    (free_slot (max_sockets m) 0 sockets, tick m);
  socket_connect _ _ _ _ m := (reachable m, tick m);
  socket_write _ _ m := tick m;
  socket_read _ n m :=
    let m1 := tick m in
    let d := firstn (Z.to_nat n) (arrived (clock m1) (incoming m1)) in
    (d, consume (List.length d) m1);
  socket_available _ m :=
    let m1 := tick m in
    (len (arrived (clock m1) (incoming m1)), m1);
  socket_status _ m := (reachable m, tick m);
  socket_close _ m := (true, tick m);
  remote_ip _ m := (ip_address m, tick m);
  get_host_by_name _ m := (ip_address m, tick m);
  time_monotonic m := (clock m, m);
  float_sub := Qminus
}.

(** [data] reaches the modem at time [t]. *)
Definition at_time (t : Q) (data : bytes) : list (Q * byte) :=
  map (pair t) data.

Definition modem (l : list (Q * byte)) : Modem :=
  {| clock := 0; incoming := l; max_sockets := 1; reachable := true;
     ip_address := PyStr "10.0.0.1" |}.

Definition fresh (sockets : list Z) (m : Modem) : State Modem :=
  {| SOCKETS := sockets; _the_interface := m; trace := [] |}.

Definition a_socket (buf : bytes) (T : Q) : socket :=
  {| _sock_type := SOCK_STREAM; _buffer := buf; _timeout := T; _socknum := 0 |}.

(** [int(s)] on the strings of decimal digits, for running [inet_aton];
    the other strings that [int] accepts are refused here. *)
Fixpoint decimal_from (acc : Z) (s : string) : option Z :=
  match s with
  | EmptyString => Some acc
  | String c rest =>
      let d := Z.of_nat (nat_of_ascii c) - 48 in
      if (0 <=? d) && (d <=? 9) then decimal_from (10 * acc + d) rest
      else None
  end.

Definition decimal (s : string) : option Z :=
  match s with
  | EmptyString => None
  | _ => decimal_from 0 s
  end.

(** * Properties *)

(** ** Byte order helpers *)

Lemma testbit_byte_mask (a k n : Z) :
  0 <= k -> 0 <= n ->
  Z.testbit (Z.land a (Z.shiftl (Z.ones 8) k)) n
  = Z.testbit a n && ((k <=? n) && (n <? k + 8)).
Proof.
  intros Hk Hn.
  rewrite Z.land_spec, Z.shiftl_spec by assumption.
  f_equal.
  destruct (Z.leb_spec k n).
  - rewrite Z.testbit_ones_nonneg by lia. simpl.
    destruct (Z.ltb_spec (n - k) 8), (Z.ltb_spec n (k + 8)); lia || reflexivity.
  - simpl. apply Z.testbit_neg_r. lia.
Qed.

Lemma testbit_above (x k n : Z) :
  0 <= x < 2 ^ k -> k <= n -> Z.testbit x n = false.
Proof.
  intros Hx Hn.
  destruct (Z.eq_dec x 0) as [->|Hnz]; [apply Z.bits_0|].
  apply Z.bits_above_log2; [lia|].
  apply Z.lt_le_trans with k; [|assumption].
  apply Z.log2_lt_pow2; lia.
Qed.

Lemma testbit_htons (y n : Z) :
  0 <= n ->
  Z.testbit (htons y) n
  = (Z.testbit y (n - 8) && ((8 <=? n) && (n <? 16)))
    || (Z.testbit y (n + 8) && (n <? 8)).
Proof.
  intros Hn. unfold htons.
  change 0xFF00 with (Z.shiftl (Z.ones 8) 8).
  change 0xFF with (Z.shiftl (Z.ones 8) 0).
  rewrite Z.lor_spec, !testbit_byte_mask by lia.
  rewrite Z.shiftl_spec, Z.shiftr_spec by lia.
  replace (0 <=? n) with true by (symmetry; apply Z.leb_le; lia).
  reflexivity.
Qed.

Lemma testbit_htonl (y n : Z) :
  0 <= n ->
  Z.testbit (htonl y) n
  = (((Z.testbit y (n - 24) && ((24 <=? n) && (n <? 32)))
      || (Z.testbit y (n - 8) && ((16 <=? n) && (n <? 24))))
     || (Z.testbit y (n + 8) && ((8 <=? n) && (n <? 16))))
    || (Z.testbit y (n + 24) && (n <? 8)).
Proof.
  intros Hn. unfold htonl.
  change 0xFF000000 with (Z.shiftl (Z.ones 8) 24).
  change 0x00FF0000 with (Z.shiftl (Z.ones 8) 16).
  change 0x0000FF00 with (Z.shiftl (Z.ones 8) 8).
  change 0x000000FF with (Z.shiftl (Z.ones 8) 0).
  rewrite !Z.lor_spec, !testbit_byte_mask by lia.
  rewrite !Z.shiftl_spec, !Z.shiftr_spec by lia.
  replace (0 <=? n) with true by (symmetry; apply Z.leb_le; lia).
  reflexivity.
Qed.

Ltac cmp_cases :=
  repeat match goal with
    | |- context [?a <=? ?b] => destruct (Z.leb_spec a b); try lia
    | |- context [?a <? ?b] => destruct (Z.ltb_spec a b); try lia
    end.

Ltac bool_simpl :=
  cbn [andb orb]; rewrite ?andb_true_r, ?andb_false_r, ?orb_false_r, ?orb_false_l.

(** C9: the byte-swap helpers are involutions: [htons] on the 16-bit
    integers and [htonl] on the 32-bit integers. *)
Theorem byte_swaps_are_involutions :
  (forall x, 0 <= x < 2 ^ 16 -> htons (htons x) = x)
  /\ (forall x, 0 <= x < 2 ^ 32 -> htonl (htonl x) = x).
Proof.
  split; intros x Hx; apply Z.bits_inj'; intros n Hn.
  - rewrite testbit_htons by assumption.
    destruct (Z.ltb_spec n 8); [|destruct (Z.ltb_spec n 16)];
      cmp_cases; bool_simpl.
    + rewrite testbit_htons by lia. cmp_cases; bool_simpl. f_equal; lia.
    + rewrite testbit_htons by lia. cmp_cases; bool_simpl. f_equal; lia.
    + symmetry. apply testbit_above with 16; lia.
  - rewrite testbit_htonl by assumption.
    destruct (Z.ltb_spec n 8); [|destruct (Z.ltb_spec n 16);
      [|destruct (Z.ltb_spec n 24); [|destruct (Z.ltb_spec n 32)]]];
      cmp_cases; bool_simpl.
    + rewrite testbit_htonl by lia. cmp_cases; bool_simpl. f_equal; lia.
    + rewrite testbit_htonl by lia. cmp_cases; bool_simpl. f_equal; lia.
    + rewrite testbit_htonl by lia. cmp_cases; bool_simpl. f_equal; lia.
    + rewrite testbit_htonl by lia. cmp_cases; bool_simpl. f_equal; lia.
    + symmetry. apply testbit_above with 32; lia.
Qed.

Lemma byte_swaps_are_involutions_witness :
  htons (htons 0x1234) = 0x1234 /\ htonl (htonl 0x12345678) = 0x12345678.
Proof.
  split.
  - apply (proj1 byte_swaps_are_involutions 0x1234). split; [discriminate | reflexivity].
  - apply (proj2 byte_swaps_are_involutions 0x12345678). split; [discriminate | reflexivity].
Defined.

(** ** Rationals and slices *)

Lemma Qgt_bool_true (x y : Q) : Qgt_bool x y = true <-> (y < x)%Q.
Proof.
  unfold Qgt_bool. rewrite negb_true_iff. split.
  - intros E. apply Qnot_le_lt. intros Hle.
    apply Qle_bool_iff in Hle. congruence.
  - intros Hlt. destruct (Qle_bool x y) eqn:E; [|reflexivity].
    apply Qle_bool_iff in E. exfalso. apply (Qlt_not_le _ _ Hlt E).
Qed.

Lemma len_app (a b : bytes) : len (a ++ b) = len a + len b.
Proof. unfold len. rewrite length_app. lia. Qed.

Lemma len_nonneg (a : bytes) : 0 <= len a.
Proof. unfold len. lia. Qed.

Lemma slice_to_short (buf : bytes) (n : Z) :
  len buf <= n -> slice_to buf n = buf.
Proof.
  unfold slice_to, slice_bound, len. intros H.
  destruct (Z.ltb_spec n 0); [lia|].
  apply firstn_all2. lia.
Qed.

Lemma slice_from_short (buf : bytes) (n : Z) :
  len buf <= n -> slice_from buf n = [].
Proof.
  unfold slice_from, slice_bound, len. intros H.
  destruct (Z.ltb_spec n 0); [lia|].
  apply skipn_all2. lia.
Qed.

Lemma slice_to_firstn (buf : bytes) (n : Z) :
  0 <= n -> slice_to buf n = firstn (Z.to_nat n) buf.
Proof.
  unfold slice_to, slice_bound. intros H.
  destruct (Z.ltb_spec n 0); [lia|reflexivity].
Qed.

Lemma slice_from_skipn (buf : bytes) (n : Z) :
  0 <= n -> slice_from buf n = skipn (Z.to_nat n) buf.
Proof.
  unfold slice_from, slice_bound. intros H.
  destruct (Z.ltb_spec n 0); [lia|reflexivity].
Qed.

(** ** Traces *)

Lemma count_app (p : Event -> bool) (a b : list Event) :
  count p (a ++ b) = (count p a + count p b)%nat.
Proof. unfold count. rewrite filter_app, length_app. reflexivity. Qed.

Lemma bytes_read_app (a b : list Event) :
  bytes_read (a ++ b) = bytes_read a ++ bytes_read b.
Proof.
  induction a as [|e a IH]; [reflexivity|].
  destruct e; simpl; rewrite ?IH, ?app_assoc; reflexivity.
Qed.

Section Properties.

Context {W : Type} {iface : Interface W}.

Implicit Types (st : State W) (self : socket).

Lemma after_nil st : after st (_the_interface st) [] = st.
Proof. destruct st. unfold after. simpl. rewrite app_nil_r. reflexivity. Qed.

Lemma called_after st w e : called st w e = after st w [e].
Proof. reflexivity. Qed.

Lemma after_after st w evs w' evs' :
  after (after st w evs) w' evs' = after st w' (evs ++ evs').
Proof. unfold after. simpl. rewrite app_assoc. reflexivity. Qed.

Lemma set_buffer_same self : set_buffer self (_buffer self) = self.
Proof. destruct self. reflexivity. Qed.

(** *** [getaddrinfo] *)

(** C7: [getaddrinfo] raises its "Port must be an integer" error
    exactly when [port] is not an [int]; for an [int] port it returns
    one tuple, whose address is the interface's answer for [host] and
    whose port is [port]. *)
Theorem getaddrinfo_checks_port
    (host port family socktype proto flags : pyobj) st :
  is_raise (fst (getaddrinfo host port family socktype proto flags st))
  = negb (isinstance_int port)
  /\ (isinstance_int port = false ->
      getaddrinfo host port family socktype proto flags st
      = (Raise (RuntimeError "Port must be an integer" []), st))
  /\ (forall p, port = PyInt p ->
      exists ip w,
        get_host_by_name host (_the_interface st) = (ip, w)
        /\ getaddrinfo host port family socktype proto flags st
           = (Ok [ {| ai_family := AF_INET; ai_socktype := socktype;
                      ai_proto := proto; ai_canonname := "";
                      ai_sockaddr := (ip, PyInt p) |} ],
              after st w [Call_get_host_by_name host ip])).
Proof.
  unfold getaddrinfo, gethostbyname, call_get_host_by_name.
  destruct (get_host_by_name host (_the_interface st)) as [ip w] eqn:E.
  repeat split.
  - destruct (isinstance_int port); reflexivity.
  - intros ->. reflexivity.
  - intros p ->. exists ip, w. split; reflexivity.
Qed.

(** *** Construction *)

(** C10: construction fails, with the error about the family, exactly
    when [family] is not [AF_INET]; when [get_socket] answers
    [NO_SOCKET_AVAIL] construction succeeds all the same, the value is
    appended to [SOCKETS] and is the socket number of the new socket. *)
Theorem socket_init_fails_on_family_only (family type : Z) st :
  is_raise (fst (socket_init family type st)) = negb (family =? AF_INET)
  /\ (family <> AF_INET ->
      socket_init family type st
      = (Raise (RuntimeError
                  "Only AF_INET family supported by cellular sockets." []),
         st))
  /\ (forall w,
      get_socket (SOCKETS st) (_the_interface st) = (NO_SOCKET_AVAIL, w) ->
      exists self st',
        socket_init AF_INET type st = (Ok self, st')
        /\ _socknum self = NO_SOCKET_AVAIL
        /\ SOCKETS st' = SOCKETS st ++ [NO_SOCKET_AVAIL]).
Proof.
  unfold socket_init, call_get_socket.
  repeat split.
  - destruct (family =? AF_INET); [|reflexivity].
    destruct (get_socket (SOCKETS st) (_the_interface st)). reflexivity.
  - intros Hne. apply Z.eqb_neq in Hne. rewrite Hne. reflexivity.
  - intros w E. rewrite E. simpl. eexists. eexists.
    repeat split; reflexivity.
Qed.

(** *** [connect] *)

(** C6: with [conntype = 0x03], [connect] fails on its assertion
    whatever the address, the socket and the interface are, and leaves
    the module state, so also the trace of calls, as it was. *)
Theorem connect_refuses_tls self (address : list pyobj) st :
  connect self address (Some 0x03) st
  = (Raise (AssertionError
       "Error: SSL/TLS is not currently supported by CircuitPython."),
     self, st)
  /\ count is_connect (trace (snd (connect self address (Some 0x03) st)))
     = count is_connect (trace st).
Proof. split; reflexivity. Qed.

(** *** Drain mode *)

Lemma drain_loop_drained (n : nat) :
  forall self st ds w',
    drained (_socknum self) n (_the_interface st) = Some (ds, w') ->
    forall fuel, (n < fuel)%nat ->
    exists evs,
      drain_loop fuel self st
      = Some (set_buffer self (_buffer self ++ List.concat ds),
              after st w' evs)
      /\ count is_available evs = S n
      /\ count is_read evs = n
      /\ count is_monotonic evs = O
      /\ List.length evs = (2 * n + 1)%nat
      /\ bytes_read evs = List.concat ds.
Proof.
  induction n as [|n IH]; intros self st ds w' Hd fuel Hfuel;
    (destruct fuel as [|fuel]; [lia|]);
    cbn [drained] in Hd; cbn [drain_loop];
    unfold available, call_socket_available;
    destruct (socket_available (_socknum self) (_the_interface st))
      as [a w1] eqn:Ea;
    destruct (a =? 0) eqn:Ez; try discriminate; cbn [negb].
  - injection Hd as <- <-.
    exists [Call_socket_available (_socknum self) a].
    cbn [List.concat]. rewrite app_nil_r, set_buffer_same.
    repeat split; reflexivity.
  - unfold call_socket_read. cbn [_the_interface called].
    destruct (socket_read (_socknum self) a w1) as [d w2] eqn:Er.
    destruct (drained (_socknum self) n w2) as [[ds' w'']|] eqn:Ed;
      [|discriminate].
    injection Hd as <- <-.
    set (st2 := called (called st w1 (Call_socket_available (_socknum self) a))
                       w2 (Call_socket_read (_socknum self) a d)).
    destruct (IH (set_buffer self (_buffer self ++ d)) st2 ds' w'' Ed fuel
                 ltac:(lia))
      as (evs & Hrun & Ha & Hr & Hm & Hl & Hb).
    exists (Call_socket_available (_socknum self) a
            :: Call_socket_read (_socknum self) a d :: evs).
    rewrite Hrun. subst st2. rewrite !called_after, !after_after.
    cbn [set_buffer _buffer _sock_type _timeout _socknum List.concat app].
    rewrite <- app_assoc.
    unfold count in *. cbn [filter is_available is_read is_monotonic
                              List.length bytes_read].
    repeat split; try congruence; lia.
Qed.

(** C2: drain mode.  When the interface has bytes for [n] polls and
    none for the poll after them, [recv(0)] returns what was buffered
    followed by everything the reads handed over, and leaves the
    buffer empty.  It polls [available] once more than it reads, so
    at least once, calls nothing else (it never reads the clock), and
    stops at the first poll that finds nothing.  A second [recv(0)]
    right after it, when the next poll finds nothing either, returns
    no bytes. *)
Theorem recv_drain self st (n : nat) (ds : list bytes) (w' : W) :
  drained (_socknum self) n (_the_interface st) = Some (ds, w') ->
  forall fuel, (n < fuel)%nat ->
  exists evs,
    recv fuel self 0 st
    = Some (_buffer self ++ List.concat ds, set_buffer self [],
            after st w' evs)
    /\ (1 <= count is_available evs)%nat
    /\ count is_available evs = S (count is_read evs)
    /\ count is_read evs = n
    /\ List.length evs = (count is_available evs + count is_read evs)%nat
    /\ bytes_read evs = List.concat ds
    /\ (forall w'' fuel',
         socket_available (_socknum self) w' = (0, w'') ->
         (0 < fuel')%nat ->
         recv fuel' (set_buffer self []) 0 (after st w' evs)
         = Some ([], set_buffer self [],
                 after st w''
                   (evs ++ [Call_socket_available (_socknum self) 0]))).
Proof.
  intros Hd fuel Hfuel.
  destruct (drain_loop_drained n self st ds w' Hd fuel Hfuel)
    as (evs & Hrun & Ha & Hr & Hm & Hl & Hb).
  exists evs. unfold recv. cbn [Z.eqb]. rewrite Hrun.
  repeat split; try assumption; try lia.
  intros w'' fuel' Hz Hfuel'.
  destruct fuel' as [|fuel']; [lia|].
  cbn [drain_loop]. unfold available, call_socket_available.
  cbn [set_buffer _socknum _the_interface after]. rewrite Hz.
  cbn [Z.eqb negb _buffer]. rewrite called_after, after_after. reflexivity.
Qed.

(** *** Bounded mode *)

Lemma recv_loop_done (fuel : nat) self (v : wait) st :
  to_read v <= 0 -> recv_loop fuel self v st = Some (v, st).
Proof.
  intros H. apply Z.leb_le in H.
  destruct fuel; cbn [recv_loop]; rewrite H; reflexivity.
Qed.

(** C3: when the buffer already holds [bufsize] bytes or more,
    [recv(bufsize)] returns the first [bufsize] of them and keeps the
    others, in order; the only call it makes reads the clock, so it
    calls neither [available] nor [socket_read]. *)
Theorem recv_served_from_buffer self st (bufsize : Z) :
  0 < bufsize -> bufsize <= len (_buffer self) ->
  forall fuel,
  exists t w,
    time_monotonic (_the_interface st) = (t, w)
    /\ recv fuel self bufsize st
       = Some (firstn (Z.to_nat bufsize) (_buffer self),
               set_buffer self (skipn (Z.to_nat bufsize) (_buffer self)),
               after st w [Call_monotonic t])
    /\ len (firstn (Z.to_nat bufsize) (_buffer self)) = bufsize
    /\ len (skipn (Z.to_nat bufsize) (_buffer self))
       = len (_buffer self) - bufsize
    /\ count is_available [Call_monotonic t] = O
    /\ count is_read [Call_monotonic t] = O.
Proof.
  intros Hpos Hle fuel.
  destruct (time_monotonic (_the_interface st)) as [t w] eqn:Et.
  exists t, w. split; [reflexivity|].
  assert (Hlen1 : len (firstn (Z.to_nat bufsize) (_buffer self)) = bufsize)
    by (unfold len in *; rewrite length_firstn; lia).
  assert (Hlen2 : len (skipn (Z.to_nat bufsize) (_buffer self))
                  = len (_buffer self) - bufsize)
    by (unfold len in *; rewrite length_skipn; lia).
  repeat split; try assumption.
  unfold recv, call_monotonic. rewrite Et.
  destruct (Z.eqb_spec bufsize 0) as [|_]; [lia|].
  rewrite recv_loop_done by (cbn [to_read]; lia).
  cbn [received List.concat]. rewrite app_nil_r.
  destruct (Z.eqb_spec (len (_buffer self)) bufsize) as [Heq|Hne].
  - rewrite firstn_all2, skipn_all2 by (unfold len in Heq; lia).
    reflexivity.
  - rewrite slice_to_firstn, slice_from_skipn by lia. reflexivity.
Qed.

Lemma recv_loop_starved (n : nat) :
  forall self st need stamp0 rcv ds w',
    (0 < _timeout self)%Q ->
    starved (_socknum self) (_timeout self) n need stamp0 (_the_interface st)
    = Some (ds, w') ->
    forall fuel, (n <= fuel)%nat ->
    exists evs v,
      recv_loop fuel self
        {| to_read := need; received := rcv; stamp := stamp0 |} st
      = Some (v, after st w' evs)
      /\ received v = rcv ++ ds
      /\ to_read v = need - len (List.concat ds)
      /\ 0 < to_read v
      /\ bytes_read evs = List.concat ds
      /\ (1 <= count is_available evs)%nat
      /\ exists evs0 t,
           evs = evs0 ++ [Call_monotonic t]
           /\ (_timeout self < float_sub t (stamp v))%Q.
Proof.
  induction n as [|n IH]; intros self st need stamp0 rcv ds w' HT Hs fuel Hfuel;
    [discriminate|].
  destruct fuel as [|fuel]; [lia|].
  apply Qgt_bool_true in HT.
  cbn [starved] in Hs. cbn [recv_loop to_read received stamp].
  unfold available, call_socket_available.
  destruct (socket_available (_socknum self) (_the_interface st))
    as [a w1] eqn:Ea.
  destruct (negb (a =? 0)) eqn:Ez.
  - (* bytes are available *)
    unfold call_monotonic, call_socket_read. cbn [_the_interface called].
    destruct (time_monotonic w1) as [t w2] eqn:Et.
    cbn [_the_interface called].
    destruct (socket_read (_socknum self) (Z.min need a) w2) as [d w3] eqn:Er.
    destruct (Z.leb_spec (need - len d) 0) as [|Hneed]; [discriminate|].
    assert (Hneed0 : (need <=? 0) = false)
      by (apply Z.leb_gt; pose proof (len_nonneg d); lia).
    rewrite Hneed0, HT. cbn [_the_interface called to_read received stamp].
    destruct (time_monotonic w3) as [t' w4] eqn:Et'.
    rewrite !called_after, !after_after. cbn [app].
    destruct (Qgt_bool (float_sub t' t) (_timeout self)) eqn:Ex.
    + injection Hs as <- <-.
      eexists. eexists. split; [reflexivity|].
      cbn [received to_read stamp List.concat bytes_read app].
      rewrite !app_nil_r.
      repeat split; try lia.
      * unfold count. cbn. lia.
      * exists [Call_socket_available (_socknum self) a; Call_monotonic t;
                Call_socket_read (_socknum self) (Z.min need a) d], t'.
        split; [reflexivity|]. apply Qgt_bool_true. assumption.
    + destruct (starved (_socknum self) (_timeout self) n (need - len d) t w4)
        as [[ds' w'']|] eqn:Es; [|discriminate].
      injection Hs as <- <-.
      apply Qgt_bool_true in HT.
      destruct (IH self
                   (after st w4
                      [Call_socket_available (_socknum self) a;
                       Call_monotonic t;
                       Call_socket_read (_socknum self) (Z.min need a) d;
                       Call_monotonic t'])
                   (need - len d) t (rcv ++ [d]) ds' w'' HT Es fuel
                   ltac:(lia))
        as (evs & v & Hrun & Hrcv & Hto & Hpos & Hb & Ha & evs0 & tl & Hlast & Hexp).
      rewrite Hrun, after_after.
      eexists. exists v. split; [reflexivity|].
      cbn [List.concat app bytes_read].
      rewrite Hrcv, Hto, Hb, len_app, <- app_assoc.
      repeat split; try lia.
      * unfold count in *. cbn. lia.
      * exists (Call_socket_available (_socknum self) a :: Call_monotonic t
                :: Call_socket_read (_socknum self) (Z.min need a) d
                :: Call_monotonic t' :: evs0), tl.
        split; [rewrite Hlast; reflexivity | assumption].
  - (* nothing is available *)
    destruct (Z.leb_spec need 0) as [|Hneed]; [discriminate|].
    rewrite HT. unfold call_monotonic. cbn [_the_interface called stamp].
    destruct (time_monotonic w1) as [t' w4] eqn:Et'.
    rewrite !called_after, !after_after. cbn [app].
    destruct (Qgt_bool (float_sub t' stamp0) (_timeout self)) eqn:Ex.
    + injection Hs as <- <-.
      eexists. eexists. split; [reflexivity|].
      cbn [received to_read stamp List.concat bytes_read app].
      rewrite !app_nil_r. change (len []) with 0.
      repeat split; try lia.
      * unfold count. cbn. lia.
      * exists [Call_socket_available (_socknum self) a], t'.
        split; [reflexivity|]. apply Qgt_bool_true. assumption.
    + destruct (starved (_socknum self) (_timeout self) n need stamp0 w4)
        as [[ds' w'']|] eqn:Es; [|discriminate].
      injection Hs as <- <-.
      apply Qgt_bool_true in HT.
      destruct (IH self
                   (after st w4
                      [Call_socket_available (_socknum self) a;
                       Call_monotonic t'])
                   need stamp0 rcv ds' w'' HT Es fuel ltac:(lia))
        as (evs & v & Hrun & Hrcv & Hto & Hpos & Hb & Ha & evs0 & tl & Hlast & Hexp).
      rewrite Hrun, after_after.
      eexists. exists v. split; [reflexivity|].
      cbn [List.concat app bytes_read].
      rewrite Hrcv, Hto, Hb.
      repeat split; try lia.
      * unfold count in *. cbn. lia.
      * exists (Call_socket_available (_socknum self) a
                :: Call_monotonic t' :: evs0), tl.
        split; [rewrite Hlast; reflexivity | assumption].
Qed.

(** C1, as the code has it: bounded mode under a timeout.  For a socket
    with a positive timeout and [bufsize > 0]: when a test of the wait
    loop, which makes one after every poll, finds that the reading of
    the clock minus the reading taken at the last poll that found bytes
    (at the start of the call when none did) is more than the timeout,
    while fewer than [bufsize] bytes have accumulated (those buffered
    and those read), [recv(bufsize)] returns, raising nothing, the
    buffered bytes followed by all the bytes read during the call; they
    are fewer than [bufsize], and the buffer is left empty. *)
Theorem recv_timeout_returns_what_accumulated
    self st (bufsize : Z) (n : nat) (t0 : Q) (w0 : W)
    (ds : list bytes) (w' : W) :
  (0 < _timeout self)%Q -> 0 < bufsize ->
  time_monotonic (_the_interface st) = (t0, w0) ->
  starved (_socknum self) (_timeout self) n
          (bufsize - len (_buffer self)) t0 w0 = Some (ds, w') ->
  forall fuel, (n <= fuel)%nat ->
  exists evs,
    recv fuel self bufsize st
    = Some (_buffer self ++ List.concat ds, set_buffer self [],
            after st w' evs)
    /\ len (_buffer self ++ List.concat ds) < bufsize
    /\ bytes_read evs = List.concat ds
    /\ exists evs0 t, evs = evs0 ++ [Call_monotonic t].
Proof.
  intros HT Hpos Et Hs fuel Hfuel.
  unfold recv, call_monotonic. rewrite Et.
  destruct (Z.eqb_spec bufsize 0) as [|_]; [lia|].
  destruct (recv_loop_starved n self
              (called st w0 (Call_monotonic t0))
              (bufsize - len (_buffer self)) t0 [] ds w' HT Hs fuel Hfuel)
    as (evs & v & Hrun & Hrcv & Hto & Hleft & Hb & _ & evs0 & t & Hlast & _).
  rewrite Hrun, Hrcv, called_after, after_after. cbn [app].
  assert (Hshort : len (_buffer self ++ List.concat ds) < bufsize)
    by (rewrite len_app; lia).
  destruct (Z.eqb_spec (len (_buffer self ++ List.concat ds)) bufsize);
    [lia|].
  rewrite slice_to_short, slice_from_short by lia.
  exists (Call_monotonic t0 :: evs).
  repeat split; try assumption.
  exists (Call_monotonic t0 :: evs0), t. rewrite Hlast. reflexivity.
Qed.

(** *** [readline] *)

Lemma bytes_find_unfold (sep buf : bytes) :
  bytes_find sep buf
  = if startswith sep buf then Some O
    else match buf with
         | [] => None
         | _ :: rest => option_map S (bytes_find sep rest)
         end.
Proof. destruct buf; reflexivity. Qed.

Lemma startswith_spec (sep : bytes) :
  forall buf, startswith sep buf = true <-> exists rest, buf = sep ++ rest.
Proof.
  induction sep as [|x sep IH]; intros buf; cbn [startswith].
  - split; [intros _; exists buf; reflexivity | reflexivity].
  - destruct buf as [|y buf].
    + split; [discriminate | intros [rest H]; discriminate].
    + rewrite andb_true_iff, IH. split.
      * intros [Hxy [rest ->]]. apply Byte.byte_dec_bl in Hxy. subst y.
        exists rest. reflexivity.
      * intros [rest H]. injection H as -> ->.
        split; [apply Byte.byte_dec_lb; reflexivity | exists rest; reflexivity].
Qed.

Lemma bytes_find_spec (sep : bytes) :
  forall buf i,
    bytes_find sep buf = Some i ->
    buf = firstn i buf ++ sep ++ skipn (i + List.length sep) buf
    /\ forall a c, buf = a ++ sep ++ c -> (i <= List.length a)%nat.
Proof.
  induction buf as [|x buf IH]; intros i; rewrite bytes_find_unfold;
    destruct (startswith sep _) eqn:Es.
  - intros [= <-]. apply startswith_spec in Es as [rest Hrest].
    split; [|intros; lia].
    cbn [firstn Nat.add app]. rewrite Hrest at 2.
    rewrite skipn_app, skipn_all, Nat.sub_diag. rewrite Hrest at 1.
    reflexivity.
  - discriminate.
  - intros [= <-]. apply startswith_spec in Es as [rest Hrest].
    split; [|intros; lia].
    cbn [firstn Nat.add app]. rewrite Hrest at 2.
    rewrite skipn_app, skipn_all, Nat.sub_diag. rewrite Hrest at 1.
    reflexivity.
  - destruct (bytes_find sep buf) as [j|] eqn:Ej; [|discriminate].
    intros [= <-]. destruct (IH j eq_refl) as [Hsplit Hfirst].
    split.
    + cbn [firstn Nat.add skipn app]. rewrite <- Hsplit. reflexivity.
    + intros a c Hac. destruct a as [|y a].
      * assert (startswith sep (x :: buf) = true)
          by (apply startswith_spec; exists c; exact Hac).
        congruence.
      * injection Hac as _ Hac. cbn [List.length].
        specialize (Hfirst a c Hac). lia.
Qed.

Lemma bytes_split1_spec (sep buf : bytes) :
  bytes_contains sep buf = true ->
  exists pre post,
    bytes_split1 sep buf = [pre; post]
    /\ buf = pre ++ sep ++ post
    /\ forall a c, buf = a ++ sep ++ c -> (List.length pre <= List.length a)%nat.
Proof.
  unfold bytes_contains, bytes_split1.
  destruct (bytes_find sep buf) as [i|] eqn:Ei; [intros _|discriminate].
  destruct (bytes_find_spec sep buf i Ei) as [Hsplit Hfirst].
  exists (firstn i buf), (skipn (i + List.length sep) buf).
  repeat split; try assumption.
  intros a c Hac. specialize (Hfirst a c Hac).
  rewrite length_firstn. lia.
Qed.

Ltac trace_facts :=
  repeat split; try assumption;
  try (unfold count in *; cbn [filter is_close List.length]; assumption).

Lemma readline_loop_awaited (n : nat) :
  forall self st stamp0 out,
    awaited (_socknum self) (_timeout self) stamp0 n (_buffer self)
            (_the_interface st) = Some out ->
    forall fuel, (n <= fuel)%nat ->
    match out with
    | Line buf w' =>
        exists evs,
          readline_loop fuel self stamp0 st
          = Some (Ok tt, set_buffer self buf, after st w' evs)
          /\ buf = _buffer self ++ bytes_read evs
          /\ bytes_contains CRLF buf = true
          /\ count is_close evs = O
    | Expired buf w' =>
        exists evs r w'',
          socket_close (_socknum self) w' = (r, w'')
          /\ readline_loop fuel self stamp0 st
             = Some (Raise incomplete, set_buffer self buf,
                     after st w'' (evs ++ [Call_socket_close (_socknum self) r]))
          /\ buf = _buffer self ++ bytes_read evs
          /\ bytes_contains CRLF buf = false
          /\ count is_close evs = O
          /\ exists evs0 t,
               evs = evs0 ++ [Call_socket_available (_socknum self) 0;
                              Call_monotonic t]
               /\ (_timeout self < float_sub t stamp0)%Q
    end.
Proof.
  induction n as [|n IH]; intros self st stamp0 out Ha fuel Hfuel.
  - cbn [awaited] in Ha.
    destruct (bytes_contains CRLF (_buffer self)) eqn:Ec; [|discriminate].
    injection Ha as <-. exists [].
    cbn [bytes_read]. rewrite app_nil_r, set_buffer_same, after_nil.
    repeat split; try assumption.
    destruct fuel; cbn [readline_loop]; rewrite Ec; reflexivity.
  - cbn [awaited] in Ha.
    destruct (bytes_contains CRLF (_buffer self)) eqn:Ec.
    { injection Ha as <-. exists [].
      cbn [bytes_read]. rewrite app_nil_r, set_buffer_same, after_nil.
      repeat split; try assumption.
      destruct fuel; cbn [readline_loop]; rewrite Ec; reflexivity. }
    destruct fuel as [|fuel]; [lia|].
    cbn [readline_loop]. rewrite Ec.
    unfold available, call_socket_available.
    destruct (socket_available (_socknum self) (_the_interface st))
      as [a w1] eqn:Eav.
    destruct (negb (a =? 0)) eqn:Ez.
    + (* bytes are available *)
      unfold call_socket_read. cbn [_the_interface called].
      destruct (socket_read (_socknum self) a w1) as [d w2] eqn:Er.
      rewrite !called_after, !after_after. cbn [app].
      specialize (IH (set_buffer self (_buffer self ++ d))
                     (after st w2 [Call_socket_available (_socknum self) a;
                                   Call_socket_read (_socknum self) a d])
                     stamp0 out Ha fuel ltac:(lia)).
      destruct out as [buf w'|buf w'].
      * destruct IH as (evs & Hrun & Hbuf & Hc & Hcl).
        rewrite Hrun, after_after.
        eexists. split; [reflexivity|].
        cbn [set_buffer _buffer] in Hbuf. subst buf.
        cbn [app bytes_read]. rewrite <- ?app_assoc in *.
        trace_facts.
      * destruct IH as (evs & r & w'' & Hclose & Hrun & Hbuf & Hc & Hcl
                        & evs0 & t & Hlast & Hexp).
        cbn [set_buffer _socknum _timeout _buffer] in *.
        rewrite Hrun, after_after. subst buf.
        exists (Call_socket_available (_socknum self) a
                :: Call_socket_read (_socknum self) a d :: evs), r, w''.
        cbn [app bytes_read]. rewrite <- ?app_assoc in *.
        trace_facts.
        exists (Call_socket_available (_socknum self) a
                :: Call_socket_read (_socknum self) a d :: evs0), t.
        rewrite Hlast. split; [reflexivity | assumption].
    + (* nothing is available *)
      apply negb_false_iff, Z.eqb_eq in Ez. subst a.
      destruct (Qgt_bool (_timeout self) 0) eqn:ET.
      * unfold call_monotonic. cbn [_the_interface called].
        destruct (time_monotonic w1) as [t w2] eqn:Et.
        rewrite !called_after, !after_after. cbn [app].
        destruct (Qgt_bool (float_sub t stamp0) (_timeout self)) eqn:Ex.
        -- injection Ha as <-.
           unfold close, call_socket_close. cbn [_the_interface after].
           destruct (socket_close (_socknum self) w2) as [r w''] eqn:Ecl.
           exists [Call_socket_available (_socknum self) 0; Call_monotonic t],
                  r, w''.
           rewrite called_after, after_after.
           cbn [app bytes_read]. rewrite app_nil_r, set_buffer_same.
           trace_facts.
           exists [], t. split; [reflexivity|].
           apply Qgt_bool_true. assumption.
        -- specialize (IH self
                         (after st w2 [Call_socket_available (_socknum self) 0;
                                       Call_monotonic t])
                         stamp0 out Ha fuel ltac:(lia)).
           destruct out as [buf w'|buf w'].
           ++ destruct IH as (evs & Hrun & Hbuf & Hc & Hcl).
              rewrite Hrun, after_after.
              eexists. split; [reflexivity|].
              cbn [app bytes_read]. trace_facts.
           ++ destruct IH as (evs & r & w'' & Hclose & Hrun & Hbuf & Hc & Hcl
                              & evs0 & tl & Hlast & Hexp).
              rewrite Hrun, after_after.
              exists (Call_socket_available (_socknum self) 0
                      :: Call_monotonic t :: evs), r, w''.
              cbn [app bytes_read].
              trace_facts.
              exists (Call_socket_available (_socknum self) 0
                      :: Call_monotonic t :: evs0), tl.
              rewrite Hlast. split; [reflexivity | assumption].
      * rewrite !called_after.
        specialize (IH self
                       (after st w1 [Call_socket_available (_socknum self) 0])
                       stamp0 out Ha fuel ltac:(lia)).
        destruct out as [buf w'|buf w'].
        -- destruct IH as (evs & Hrun & Hbuf & Hc & Hcl).
           rewrite Hrun, after_after.
           eexists. split; [reflexivity|].
           cbn [app bytes_read]. trace_facts.
        -- destruct IH as (evs & r & w'' & Hclose & Hrun & Hbuf & Hc & Hcl
                           & evs0 & tl & Hlast & Hexp).
           rewrite Hrun, after_after.
           exists (Call_socket_available (_socknum self) 0 :: evs), r, w''.
           cbn [app bytes_read].
           trace_facts.
           exists (Call_socket_available (_socknum self) 0 :: evs0), tl.
           rewrite Hlast. split; [reflexivity | assumption].
Qed.

(** C4: when the buffer, after the reads needed for it, holds a CRLF,
    [readline] returns the bytes before the first CRLF and leaves in
    the buffer the bytes after that CRLF, which itself is dropped. *)
Theorem readline_splits_at_first_crlf
    self st (n : nat) (t0 : Q) (w0 : W) (buf : bytes) (w' : W) :
  time_monotonic (_the_interface st) = (t0, w0) ->
  awaited (_socknum self) (_timeout self) t0 n (_buffer self) w0
  = Some (Line buf w') ->
  forall fuel, (n <= fuel)%nat ->
  exists pre post evs,
    readline fuel self st
    = Some (Ok pre, set_buffer self post, after st w' evs)
    /\ buf = _buffer self ++ bytes_read evs
    /\ buf = pre ++ CRLF ++ post
    /\ forall a c, buf = a ++ CRLF ++ c ->
                   (List.length pre <= List.length a)%nat.
Proof.
  intros Et Ha fuel Hfuel.
  destruct (readline_loop_awaited n self (called st w0 (Call_monotonic t0))
              t0 (Line buf w') Ha fuel Hfuel)
    as (evs & Hrun & Hbuf & Hc & _).
  destruct (bytes_split1_spec CRLF buf Hc) as (pre & post & Hsp & Heq & Hfirst).
  exists pre, post, (Call_monotonic t0 :: evs).
  unfold readline, call_monotonic. rewrite Et, Hrun.
  cbn [set_buffer _buffer]. rewrite Hsp, called_after, after_after.
  repeat split; assumption.
Qed.

(** C5, as the code has it: for a socket with a positive timeout, when
    during [readline] a poll finds nothing available while no CRLF is
    buffered and the reading of the clock then taken minus the reading
    taken when the call began is more than the timeout, [socket_close]
    is called for the slot of the socket, once and as the last call,
    and the RuntimeError "Didn't receive full response, failing out" is
    raised. *)
Theorem readline_closes_on_timeout
    self st (n : nat) (t0 : Q) (w0 : W) (buf : bytes) (w' : W) :
  (0 < _timeout self)%Q ->
  time_monotonic (_the_interface st) = (t0, w0) ->
  awaited (_socknum self) (_timeout self) t0 n (_buffer self) w0
  = Some (Expired buf w') ->
  forall fuel, (n <= fuel)%nat ->
  exists evs r st',
    readline fuel self st = Some (Raise incomplete, set_buffer self buf, st')
    /\ trace st' = trace st ++ evs ++ [Call_socket_close (_socknum self) r]
    /\ count is_close evs = O
    /\ count (is_close_of (_socknum self))
             (evs ++ [Call_socket_close (_socknum self) r]) = 1%nat
    /\ count is_close (evs ++ [Call_socket_close (_socknum self) r]) = 1%nat.
Proof.
  intros HT Et Ha fuel Hfuel.
  destruct (readline_loop_awaited n self (called st w0 (Call_monotonic t0))
              t0 (Expired buf w') Ha fuel Hfuel)
    as (evs & r & w'' & Hclose & Hrun & Hbuf & Hc & Hcl & _).
  exists (Call_monotonic t0 :: evs), r,
         (after st w'' (Call_monotonic t0 :: evs
                        ++ [Call_socket_close (_socknum self) r])).
  unfold readline, call_monotonic. rewrite Et, Hrun.
  rewrite called_after, after_after.
  assert (Hcl' : count is_close (Call_monotonic t0 :: evs) = O)
    by (unfold count in *; cbn [filter is_close]; assumption).
  assert (Hof : count (is_close_of (_socknum self))
                      (Call_monotonic t0 :: evs) = O).
  { unfold count in *. cbn [filter is_close_of].
    clear - Hcl. induction evs as [|e evs IH]; [reflexivity|].
    destruct e; cbn [filter is_close is_close_of List.length] in *;
      try (apply IH; assumption); discriminate. }
  repeat split; try assumption.
  - rewrite count_app, Hof. unfold count.
    cbn [filter is_close_of]. rewrite Z.eqb_refl. reflexivity.
  - rewrite count_app, Hcl'. reflexivity.
Qed.

(** *** The registry *)

Ltac split_calls :=
  unfold available, close, call_socket_available, call_socket_read,
    call_monotonic, call_socket_close in *;
  repeat match goal with
    | H : context [let (_, _) := ?e in _] |- _ =>
        let E := fresh "E" in destruct e eqn:E
    | H : context [if ?b then _ else _] |- _ =>
        let E := fresh "E" in destruct b eqn:E
    end;
  repeat match goal with
    | H : (_, _) = (_, _) |- _ => injection H as ? ?; subst
    end.

Lemma drain_loop_registry (fuel : nat) :
  forall self st self' st',
    drain_loop fuel self st = Some (self', st') -> SOCKETS st' = SOCKETS st.
Proof.
  induction fuel as [|fuel IH]; intros self st self' st' H;
    cbn [drain_loop] in H; [discriminate|].
  split_calls.
  - apply IH in H. exact H.
  - injection H as <- <-. reflexivity.
Qed.

Lemma recv_loop_registry (fuel : nat) :
  forall self v st v' st',
    recv_loop fuel self v st = Some (v', st') -> SOCKETS st' = SOCKETS st.
Proof.
  induction fuel as [|fuel IH]; intros self v st v' st' H;
    cbn [recv_loop] in H.
  - destruct (to_read v <=? 0); [|discriminate].
    injection H as <- <-. reflexivity.
  - destruct (to_read v <=? 0); [injection H as <- <-; reflexivity|].
    split_calls;
      try (injection H as <- <-; reflexivity);
      apply IH in H; exact H.
Qed.

Lemma readline_loop_registry (fuel : nat) :
  forall self stamp0 st r self' st',
    readline_loop fuel self stamp0 st = Some (r, self', st') ->
    SOCKETS st' = SOCKETS st.
Proof.
  induction fuel as [|fuel IH]; intros self stamp0 st r self' st' H;
    cbn [readline_loop] in H.
  - destruct (bytes_contains CRLF (_buffer self)); [|discriminate].
    injection H as <- <- <-. reflexivity.
  - destruct (bytes_contains CRLF (_buffer self));
      [injection H as <- <- <-; reflexivity|].
    split_calls;
      try (injection H as <- <- <-; reflexivity);
      apply IH in H; exact H.
Qed.

Lemma run_keeps_registry (fuel : nat) (o : operation) st st' :
  run fuel o st = Some st' -> exists more, SOCKETS st' = SOCKETS st ++ more.
Proof.
  assert (Hsame : forall s : State W, SOCKETS s = SOCKETS st ->
                    exists more, SOCKETS s = SOCKETS st ++ more)
    by (intros s ->; exists []; rewrite app_nil_r; reflexivity).
  destruct o; cbn [run]; intros H; try (injection H as <-);
    try (apply Hsame; reflexivity).
  - (* getaddrinfo *)
    apply Hsame. unfold getaddrinfo, gethostbyname, call_get_host_by_name.
    destruct (negb (isinstance_int port)); [reflexivity|].
    destruct (get_host_by_name host (_the_interface st)). reflexivity.
  - (* gethostbyname *)
    apply Hsame. unfold gethostbyname, call_get_host_by_name.
    destruct (get_host_by_name hostname (_the_interface st)). reflexivity.
  - (* socket *)
    unfold socket_init, call_get_socket.
    destruct (negb (family =? AF_INET)); [apply Hsame; reflexivity|].
    destruct (get_socket (SOCKETS st) (_the_interface st)) as [k w].
    exists [k]. reflexivity.
  - (* connected *)
    apply Hsame. unfold connected, call_socket_status.
    destruct (socket_status (socknum self) (_the_interface st)). reflexivity.
  - (* getpeername *)
    apply Hsame. unfold getpeername, call_remote_ip.
    destruct (remote_ip (socknum self) (_the_interface st)). reflexivity.
  - (* connect *)
    apply Hsame. unfold connect, call_socket_connect.
    destruct conntype as [c|]; [destruct (c =? 3); [reflexivity|]|];
      (destruct address as [|host [|port [|]]]; try reflexivity;
       destruct (socket_connect (socknum self) host port (_sock_type self)
                                (_the_interface st)) as [[] ?]; reflexivity).
  - (* recv *)
    apply Hsame. unfold recv in H.
    destruct (bufsize =? 0).
    + destruct (drain_loop fuel self st) as [[self1 st1]|] eqn:E;
        [|discriminate].
      injection H as <-. cbn [snd].
      apply drain_loop_registry in E. exact E.
    + unfold call_monotonic in H.
      destruct (time_monotonic (_the_interface st)) as [t w].
      destruct (recv_loop fuel self _ _) as [[v1 st1]|] eqn:E;
        [|discriminate].
      apply recv_loop_registry in E.
      destruct (len _ =? bufsize); injection H as <-; exact E.
  - (* readline *)
    apply Hsame. unfold readline, call_monotonic in H.
    destruct (time_monotonic (_the_interface st)) as [t w].
    destruct (readline_loop fuel self t _) as [[[r self1] st1]|] eqn:E;
      [|discriminate].
    apply readline_loop_registry in E.
    destruct r; [|injection H as <-; exact E].
    destruct (bytes_split1 CRLF (_buffer self1)) as [|? [|? [|]]];
      injection H as <-; exact E.
  - (* available *)
    apply Hsame. unfold available, call_socket_available.
    destruct (socket_available (_socknum self) (_the_interface st)).
    reflexivity.
  - (* close *)
    apply Hsame. unfold close, call_socket_close.
    destruct (socket_close (_socknum self) (_the_interface st)). reflexivity.
Qed.

(** C8: [close] calls [socket_close] for the slot of the socket and
    nothing else, and leaves the registry and the socket (its buffer,
    its timeout, its socket number) as they were; and no operation of
    the module removes an entry from the registry: after any of them
    the registry is the one before, with entries added at its end. *)
Theorem close_only_calls_socket_close self st :
  (exists r w,
      socket_close (_socknum self) (_the_interface st) = (r, w)
      /\ close self st
         = (r, self, after st w [Call_socket_close (_socknum self) r]))
  /\ SOCKETS (snd (close self st)) = SOCKETS st
  /\ snd (fst (close self st)) = self
  /\ forall fuel o st0 st',
       run fuel o st0 = Some st' ->
       exists more, SOCKETS st' = SOCKETS st0 ++ more.
Proof.
  unfold close, call_socket_close.
  destruct (socket_close (_socknum self) (_the_interface st)) as [r w] eqn:E.
  repeat split.
  - exists r, w. split; reflexivity.
  - intros fuel o st0 st'. apply run_keeps_registry.
Qed.

End Properties.

(** ** The statements on the simulated modem *)

(** Bounded mode: "xy" is buffered, 5 bytes are asked for with a timeout
    of 2 seconds, "A" arrives after 1 second and nothing else for 8
    more. *)
Lemma recv_timeout_returns_what_accumulated_witness :
  let self := a_socket (bytes_of "xy") 2%Q in
  let st := fresh [] (modem (at_time 1%Q (bytes_of "A")
                             ++ at_time 9%Q (bytes_of "B"))) in
  exists w' evs,
    recv 3 self 5 st
    = Some (bytes_of "xy" ++ List.concat [bytes_of "A"], set_buffer self [],
            after st w' evs)
    /\ len (bytes_of "xy" ++ List.concat [bytes_of "A"]) < 5
    /\ bytes_read evs = List.concat [bytes_of "A"]
    /\ exists evs0 t, evs = evs0 ++ [Call_monotonic t].
Proof.
  intros self st. eexists.
  eapply (recv_timeout_returns_what_accumulated self st 5 3).
  - reflexivity.
  - reflexivity.
  - reflexivity.
  - vm_compute. reflexivity.
  - apply le_n.
Defined.

(** C1 as it is worded fails: the timeout of bounded mode is only looked
    at after a poll, against the reading taken at the last poll that
    found bytes.  Here the timeout is 1 second, 4 bytes are asked for
    and the bytes of "ABCD" arrive one by one, 1, 3, 5 and 7 seconds
    after the call, each of them 2 seconds after the one before: one
    second after the first arrival one byte has arrived, fewer than 4,
    and no more arrive within a second of it.  Every poll finds a byte,
    no test finds more than 1 second, and [recv] returns the 4 bytes
    after 8 seconds. *)
Lemma recv_late_bytes_are_still_accepted :
  let self := a_socket [] 1%Q in
  let m := modem (at_time 1%Q (bytes_of "A") ++ at_time 3%Q (bytes_of "B")
                  ++ at_time 5%Q (bytes_of "C") ++ at_time 7%Q (bytes_of "D")) in
  (0 < _timeout self)%Q
  /\ arrived (1 + _timeout self)%Q (incoming m) = bytes_of "A"
  /\ len (_buffer self ++ arrived (1 + _timeout self)%Q (incoming m)) < 4
  /\ exists st',
       recv 4 self 4 (fresh [] m) = Some (bytes_of "ABCD", self, st')
       /\ len (bytes_of "ABCD") = 4
       /\ clock (_the_interface st') = 8%Q
       /\ trace st'
          = [Call_monotonic 0%Q;
             Call_socket_available 0 1; Call_monotonic 1%Q;
             Call_socket_read 0 1 (bytes_of "A"); Call_monotonic 2%Q;
             Call_socket_available 0 1; Call_monotonic 3%Q;
             Call_socket_read 0 1 (bytes_of "B"); Call_monotonic 4%Q;
             Call_socket_available 0 1; Call_monotonic 5%Q;
             Call_socket_read 0 1 (bytes_of "C"); Call_monotonic 6%Q;
             Call_socket_available 0 1; Call_monotonic 7%Q;
             Call_socket_read 0 1 (bytes_of "D"); Call_monotonic 8%Q].
Proof.
  intros self m.
  split; [reflexivity|].
  split; [vm_compute; reflexivity|].
  split; [vm_compute; reflexivity|].
  eexists.
  split; [vm_compute; reflexivity|].
  split; [vm_compute; reflexivity|].
  split; vm_compute; reflexivity.
Qed.

(** Drain mode: "xy" is buffered, "A" and "B" are found by the first two
    polls, the third finds nothing. *)
Lemma recv_drain_witness :
  let self := a_socket (bytes_of "xy") 0%Q in
  let st := fresh [] (modem (at_time 1%Q (bytes_of "A")
                             ++ at_time 3%Q (bytes_of "B"))) in
  exists w' evs,
    recv 3 self 0 st
    = Some (bytes_of "xy" ++ List.concat [bytes_of "A"; bytes_of "B"],
            set_buffer self [], after st w' evs)
    /\ (1 <= count is_available evs)%nat
    /\ count is_read evs = 2%nat.
Proof.
  intros self st.
  edestruct (recv_drain self st 2) as (evs & Hrun & Hone & _ & Hreads & _).
  - vm_compute. reflexivity.
  - apply le_n.
  - eexists. exists evs. repeat split; eassumption.
Defined.

(** Three bytes are buffered and two are asked for. *)
Lemma recv_served_from_buffer_witness :
  let self := a_socket (bytes_of "xyz") 2%Q in
  let st := fresh [] (modem (at_time 1%Q (bytes_of "A"))) in
  exists t w,
    recv 0 self 2 st
    = Some (firstn 2 (bytes_of "xyz"),
            set_buffer self (skipn 2 (bytes_of "xyz")),
            after st w [Call_monotonic t]).
Proof.
  intros self st.
  destruct (recv_served_from_buffer self st 2) with (fuel := O)
    as (t & w & _ & Hrun & _).
  - reflexivity.
  - discriminate.
  - exists t, w. exact Hrun.
Defined.

(** The example of the specification: "AB\r\nCD" is buffered. *)
Lemma readline_splits_at_first_crlf_witness :
  let self := a_socket (bytes_of "AB" ++ CRLF ++ bytes_of "CD") 0%Q in
  let st := fresh [] (modem []) in
  readline 0 self st
  = Some (Ok (bytes_of "AB"), set_buffer self (bytes_of "CD"),
          after st (modem []) [Call_monotonic 0%Q])
  /\ forall a c, _buffer self = a ++ CRLF ++ c -> (2 <= List.length a)%nat.
Proof.
  intros self st.
  destruct (readline_splits_at_first_crlf (iface := modem_interface)
              self st 0 0%Q (modem [])
              (_buffer self) (modem []) ltac:(reflexivity) ltac:(reflexivity)
              0%nat (le_n 0))
    as (pre & post & evs & Hrun & _ & _ & Hfirst).
  assert (Hval : readline 0 self st
                 = Some (Ok (bytes_of "AB"), set_buffer self (bytes_of "CD"),
                         after st (modem []) [Call_monotonic 0%Q]))
    by reflexivity.
  rewrite Hval in Hrun. injection Hrun as <- _ _.
  split; [exact Hval | exact Hfirst].
Defined.

(** "AB" arrives, then nothing for longer than the timeout of 1 second. *)
Lemma readline_closes_on_timeout_witness :
  let self := a_socket [] 1%Q in
  let st := fresh [] (modem (at_time 1%Q (bytes_of "AB"))) in
  exists buf evs r st',
    readline 3 self st = Some (Raise incomplete, set_buffer self buf, st')
    /\ trace st' = trace st ++ evs ++ [Call_socket_close (_socknum self) r]
    /\ count is_close evs = O
    /\ count (is_close_of (_socknum self))
             (evs ++ [Call_socket_close (_socknum self) r]) = 1%nat
    /\ count is_close (evs ++ [Call_socket_close (_socknum self) r]) = 1%nat.
Proof.
  intros self st. eexists.
  eapply (readline_closes_on_timeout self st 3).
  - reflexivity.
  - reflexivity.
  - vm_compute. reflexivity.
  - apply le_n.
Defined.

(** C5 as it is worded fails: the timeout of [readline] is only looked at
    by a poll that finds nothing.  Here the timeout is 1 second and the
    bytes of "AB\r\n" arrive one by one, 1, 3, 5 and 7 seconds after the
    call: no CRLF has arrived after 1 second, nor after 6, every poll
    finds a byte, and [readline] returns the line after 8 seconds:
    nothing is raised and [socket_close] is not called. *)
Lemma readline_slow_line_is_not_an_error :
  let self := a_socket [] 1%Q in
  let m := modem (at_time 1%Q (bytes_of "A") ++ at_time 3%Q (bytes_of "B")
                  ++ at_time 5%Q [CR] ++ at_time 7%Q [LF]) in
  (0 < _timeout self)%Q
  /\ bytes_contains CRLF
       (_buffer self ++ arrived (clock m + _timeout self)%Q (incoming m))
     = false
  /\ bytes_contains CRLF (_buffer self ++ arrived 6%Q (incoming m)) = false
  /\ exists st',
       readline 4 self (fresh [] m) = Some (Ok (bytes_of "AB"), self, st')
       /\ clock (_the_interface st') = 8%Q
       /\ count is_close (trace st') = O
       /\ trace st'
          = [Call_monotonic 0%Q;
             Call_socket_available 0 1; Call_socket_read 0 1 (bytes_of "A");
             Call_socket_available 0 1; Call_socket_read 0 1 (bytes_of "B");
             Call_socket_available 0 1; Call_socket_read 0 1 [CR];
             Call_socket_available 0 1; Call_socket_read 0 1 [LF]].
Proof.
  intros self m.
  split; [reflexivity|].
  split; [vm_compute; reflexivity|].
  split; [vm_compute; reflexivity|].
  eexists.
  split; [vm_compute; reflexivity|].
  split; [vm_compute; reflexivity|].
  split; vm_compute; reflexivity.
Qed.

(** *** The other statements *)

Lemma getaddrinfo_checks_port_witness :
  let st := fresh [] (modem []) in
  getaddrinfo (PyStr "example.com") (PyStr "80") (PyInt 0) (PyInt 0) (PyInt 0)
              (PyInt 0) st
  = (Raise (RuntimeError "Port must be an integer" []), st)
  /\ exists ip w,
       get_host_by_name (PyStr "example.com") (_the_interface st) = (ip, w)
       /\ getaddrinfo (PyStr "example.com") (PyInt 80) (PyInt 0) (PyInt 0)
                      (PyInt 0) (PyInt 0) st
          = (Ok [ {| ai_family := AF_INET; ai_socktype := PyInt 0;
                     ai_proto := PyInt 0; ai_canonname := "";
                     ai_sockaddr := (ip, PyInt 80) |} ],
             after st w [Call_get_host_by_name (PyStr "example.com") ip]).
Proof.
  intros st. split.
  - apply (getaddrinfo_checks_port (PyStr "example.com") (PyStr "80")).
    reflexivity.
  - apply (getaddrinfo_checks_port (PyStr "example.com") (PyInt 80)
             (PyInt 0) (PyInt 0) (PyInt 0) (PyInt 0) st) with (p := 80).
    reflexivity.
Defined.

(** The only slot of the modem is taken. *)
Lemma socket_init_fails_on_family_only_witness :
  let st := fresh [0] (modem []) in
  socket_init 2 SOCK_STREAM st
  = (Raise (RuntimeError
              "Only AF_INET family supported by cellular sockets." []), st)
  /\ exists self st',
       socket_init AF_INET SOCK_STREAM st = (Ok self, st')
       /\ _socknum self = NO_SOCKET_AVAIL
       /\ SOCKETS st' = SOCKETS st ++ [NO_SOCKET_AVAIL].
Proof.
  intros st. split.
  - apply (socket_init_fails_on_family_only 2 SOCK_STREAM st). discriminate.
  - apply (socket_init_fails_on_family_only AF_INET SOCK_STREAM st)
      with (w := tick (modem [])).
    reflexivity.
Defined.

Lemma close_only_calls_socket_close_witness :
  let self := a_socket (bytes_of "xy") 2%Q in
  let st := fresh [0] (modem []) in
  SOCKETS (snd (close self st)) = SOCKETS st
  /\ snd (fst (close self st)) = self
  /\ exists more,
       SOCKETS (snd (socket_init AF_INET SOCK_STREAM st)) = SOCKETS st ++ more.
Proof.
  intros self st.
  destruct (close_only_calls_socket_close self st) as (_ & Hreg & Hself & Hrun).
  repeat split; try assumption.
  apply (Hrun O (Op_socket AF_INET SOCK_STREAM) st). reflexivity.
Defined.

(** * More properties *)

(** ** More on the byte order helpers *)

Lemma below_pow2_of_bits (y k : Z) :
  0 <= k -> 0 <= y -> (forall n, k <= n -> Z.testbit y n = false) ->
  y < 2 ^ k.
Proof.
  intros Hk Hy Hbits.
  destruct (Z.lt_ge_cases y (2 ^ k)) as [|Hge]; [assumption|exfalso].
  assert (Hpos : 0 < y) by (pose proof (Z.pow_pos_nonneg 2 k); lia).
  assert (Hlog : k <= Z.log2 y) by (apply Z.log2_le_pow2; assumption).
  pose proof (Z.bit_log2 y Hpos) as Hbit.
  rewrite (Hbits _ Hlog) in Hbit. discriminate.
Qed.

Lemma testbit_shift_add (a b k n : Z) :
  0 <= k -> 0 <= b < 2 ^ k -> 0 <= n ->
  Z.testbit (a * 2 ^ k + b) n
  = if n <? k then Z.testbit b n else Z.testbit a (n - k).
Proof.
  intros Hk Hb Hn.
  assert (Hdisj : Z.land (Z.shiftl a k) b = 0).
  { apply Z.bits_inj'. intros m Hm.
    rewrite Z.land_spec, Z.bits_0, Z.shiftl_spec by assumption.
    destruct (Z.lt_ge_cases m k).
    - rewrite Z.testbit_neg_r by lia. reflexivity.
    - rewrite (testbit_above b k m) by lia. apply andb_false_r. }
  rewrite <- Z.shiftl_mul_pow2 by assumption.
  rewrite <- Z.add_lor_land, Hdisj, Z.add_0_r.
  rewrite Z.lor_spec, Z.shiftl_spec by assumption.
  destruct (Z.ltb_spec n k).
  - rewrite Z.testbit_neg_r by lia. reflexivity.
  - rewrite (testbit_above b k n) by lia. apply orb_false_r.
Qed.

(** X7: the results of the byte order helpers fit their width, whatever
    integer they are given: [htons] returns a 16-bit and [htonl] a
    32-bit nonnegative integer. *)
Theorem byte_swaps_fit_their_width (x : Z) :
  0 <= htons x < 2 ^ 16 /\ 0 <= htonl x < 2 ^ 32.
Proof.
  assert (Hs : 0 <= htons x).
  { unfold htons. apply Z.lor_nonneg. split; apply Z.land_nonneg; right; lia. }
  assert (Hl : 0 <= htonl x).
  { unfold htonl. repeat (apply Z.lor_nonneg; split);
      apply Z.land_nonneg; right; lia. }
  repeat split; try assumption.
  - apply below_pow2_of_bits; [lia|assumption|].
    intros n Hn. rewrite testbit_htons by lia. cmp_cases; bool_simpl;
      reflexivity.
  - apply below_pow2_of_bits; [lia|assumption|].
    intros n Hn. rewrite testbit_htonl by lia. cmp_cases; bool_simpl;
      reflexivity.
Qed.

(** X8: [htonl] is [htons] on each half, the halves exchanged: for every
    integer [x], [htonl(x) == (htons(x) << 16) | htons(x >> 16)]. *)
Theorem htonl_swaps_halves_with_htons (x : Z) :
  htonl x = Z.lor (Z.shiftl (htons x) 16) (htons (Z.shiftr x 16)).
Proof.
  apply Z.bits_inj'. intros n Hn.
  rewrite testbit_htonl, Z.lor_spec, Z.shiftl_spec, (testbit_htons _ n)
    by assumption.
  destruct (Z.ltb_spec n 16).
  - rewrite (Z.testbit_neg_r (htons x)) by lia.
    destruct (Z.ltb_spec n 8); cmp_cases; bool_simpl;
      rewrite Z.shiftr_spec by lia; f_equal; lia.
  - rewrite testbit_htons by lia.
    cmp_cases; bool_simpl; try reflexivity; f_equal; lia.
Qed.

Lemma testbit_word (c3 c2 c1 c0 n : Z) :
  0 <= c3 < 256 -> 0 <= c2 < 256 -> 0 <= c1 < 256 -> 0 <= c0 < 256 ->
  0 <= n ->
  Z.testbit (((c3 * 2 ^ 8 + c2) * 2 ^ 8 + c1) * 2 ^ 8 + c0) n
  = if n <? 8 then Z.testbit c0 n
    else if n <? 16 then Z.testbit c1 (n - 8)
    else if n <? 24 then Z.testbit c2 (n - 16)
    else Z.testbit c3 (n - 24).
Proof.
  intros H3 H2 H1 H0 Hn.
  rewrite testbit_shift_add by lia.
  destruct (Z.ltb_spec n 8); [reflexivity|].
  rewrite testbit_shift_add by lia.
  destruct (Z.ltb_spec (n - 8) 8), (Z.ltb_spec n 16); try lia;
    [reflexivity|].
  rewrite testbit_shift_add by lia.
  destruct (Z.ltb_spec (n - 8 - 8) 8), (Z.ltb_spec n 24); try lia;
    f_equal; lia.
Qed.

(** X9: what the helpers compute, byte by byte: [htons] exchanges the two
    bytes of a 16-bit integer and [htonl] reverses the four bytes of a
    32-bit integer. *)
Theorem byte_swaps_reverse_the_bytes (b3 b2 b1 b0 : Z) :
  0 <= b3 < 256 -> 0 <= b2 < 256 -> 0 <= b1 < 256 -> 0 <= b0 < 256 ->
  htons (b1 * 2 ^ 8 + b0) = b0 * 2 ^ 8 + b1
  /\ htonl (((b3 * 2 ^ 8 + b2) * 2 ^ 8 + b1) * 2 ^ 8 + b0)
     = ((b0 * 2 ^ 8 + b1) * 2 ^ 8 + b2) * 2 ^ 8 + b3.
Proof.
  intros H3 H2 H1 H0.
  assert (Hhigh : forall b n, 0 <= b < 256 -> 8 <= n -> Z.testbit b n = false)
    by (intros b n Hb Hn; apply testbit_above with 8; [exact Hb | lia]).
  split; apply Z.bits_inj'; intros n Hn.
  - rewrite testbit_htons by assumption.
    rewrite (testbit_shift_add b0 b1 8 n) by lia.
    destruct (Z.ltb_spec n 8).
    + rewrite (testbit_shift_add b1 b0 8 (n + 8)) by lia.
      cmp_cases; bool_simpl. f_equal; lia.
    + destruct (Z.ltb_spec n 16).
      * rewrite (testbit_shift_add b1 b0 8 (n - 8)) by lia.
        cmp_cases; bool_simpl. reflexivity.
      * cmp_cases; bool_simpl. symmetry. apply Hhigh; [assumption|lia].
  - rewrite testbit_htonl by assumption.
    rewrite (testbit_word b0 b1 b2 b3 n) by assumption.
    destruct (Z.ltb_spec n 8); [|destruct (Z.ltb_spec n 16);
      [|destruct (Z.ltb_spec n 24); [|destruct (Z.ltb_spec n 32)]]];
      cmp_cases; bool_simpl;
      rewrite ?(testbit_word b3 b2 b1 b0) by (assumption || lia);
      cmp_cases;
      try (f_equal; lia);
      try (symmetry; apply Hhigh; [assumption|lia]).
Qed.

Lemma byte_swaps_reverse_the_bytes_witness :
  htons 0x5678 = 0x7856 /\ htonl 0x12345678 = 0x78563412.
Proof.
  exact (byte_swaps_reverse_the_bytes 0x12 0x34 0x56 0x78
           ltac:(lia) ltac:(lia) ltac:(lia) ltac:(lia)).
Defined.

(** ** More on receiving *)

Section Receiving.

Context {W : Type} {iface : Interface W}.

Implicit Types (st : State W) (self : socket).

Lemma concat_snoc (l : list bytes) (d : bytes) :
  List.concat (l ++ [d]) = List.concat l ++ d.
Proof. rewrite concat_app. cbn [List.concat]. rewrite app_nil_r. reflexivity. Qed.

Lemma drain_loop_inv (fuel : nat) :
  forall self st self' st',
    drain_loop fuel self st = Some (self', st') ->
    exists evs w',
      st' = after st w' evs
      /\ self' = set_buffer self (_buffer self ++ bytes_read evs)
      /\ forallb (wait_call (_socknum self)) evs = true
      /\ count is_monotonic evs = O.
Proof.
  induction fuel as [|fuel IH]; intros self st self' st' H;
    cbn [drain_loop] in H; [discriminate|].
  unfold available, call_socket_available in H.
  destruct (socket_available (_socknum self) (_the_interface st))
    as [a w1] eqn:Ea.
  destruct (negb (a =? 0)) eqn:Ez.
  - unfold call_socket_read in H. cbn [_the_interface called] in H.
    destruct (socket_read (_socknum self) a w1) as [d w2] eqn:Er.
    apply IH in H. destruct H as (evs & w' & Hst & Hself & Hall & Hm).
    exists (Call_socket_available (_socknum self) a
            :: Call_socket_read (_socknum self) a d :: evs), w'.
    rewrite !called_after, !after_after in Hst.
    cbn [set_buffer _buffer _socknum] in Hself, Hall.
    cbn [bytes_read forallb wait_call app]. rewrite Z.eqb_refl.
    rewrite <- app_assoc in Hself.
    repeat split; try assumption.
  - injection H as <- <-.
    exists [Call_socket_available (_socknum self) a], w1.
    cbn [bytes_read forallb wait_call]. rewrite Z.eqb_refl, app_nil_r, set_buffer_same.
    repeat split.
Qed.

Lemma recv_loop_inv (fuel : nat) :
  forall self v st v' st',
    recv_loop fuel self v st = Some (v', st') ->
    exists evs w',
      st' = after st w' evs
      /\ List.concat (received v') = List.concat (received v) ++ bytes_read evs
      /\ to_read v' = to_read v - len (bytes_read evs)
      /\ forallb (wait_call (_socknum self)) evs = true
      /\ (to_read v' <= 0 \/ Qgt_bool (_timeout self) 0 = true).
Proof.
  assert (Hdone : forall self v st v' st',
             (to_read v <=? 0) = true -> Some (v, st) = Some (v', st') ->
             exists evs w',
               st' = after st w' evs
               /\ List.concat (received v')
                  = List.concat (received v) ++ bytes_read evs
               /\ to_read v' = to_read v - len (bytes_read evs)
               /\ forallb (wait_call (_socknum self)) evs = true
               /\ (to_read v' <= 0 \/ Qgt_bool (_timeout self) 0 = true)).
  { intros self v st v' st' Hle [= <- <-].
    exists [], (_the_interface st). rewrite after_nil.
    cbn [bytes_read forallb]. rewrite app_nil_r. change (len []) with 0.
    apply Z.leb_le in Hle. repeat split; try lia. }
  induction fuel as [|fuel IH]; intros self v st v' st' H;
    cbn [recv_loop] in H;
    destruct (to_read v <=? 0) eqn:Hle;
    try (eapply Hdone; eassumption); [discriminate|].
  unfold available, call_socket_available in H.
  destruct (socket_available (_socknum self) (_the_interface st))
    as [a w1] eqn:Ea.
  destruct (negb (a =? 0)) eqn:Ez.
  - unfold call_monotonic, call_socket_read in H.
    cbn [_the_interface called] in H.
    destruct (time_monotonic w1) as [t w2] eqn:Et.
    cbn [_the_interface called] in H.
    destruct (socket_read (_socknum self) (Z.min (to_read v) a) w2)
      as [d w3] eqn:Er.
    rewrite !called_after, !after_after in H. cbn [app] in H.
    destruct (Qgt_bool (_timeout self) 0) eqn:ET.
    + cbn [_the_interface after] in H.
      destruct (time_monotonic w3) as [t' w4] eqn:Et'.
      rewrite called_after, after_after in H. cbn [app] in H.
      destruct (Qgt_bool _ (_timeout self)) eqn:Ex.
      * injection H as <- <-.
        eexists. exists w4. split; [reflexivity|].
        cbn [received to_read bytes_read forallb wait_call].
        rewrite Z.eqb_refl, concat_snoc, app_nil_r.
        repeat split; try (right; reflexivity).
      * apply IH in H.
        destruct H as (evs & w' & Hst & Hrcv & Hto & Hall & Hexit).
        cbn [received to_read] in Hrcv, Hto.
        rewrite after_after in Hst.
        eexists. exists w'. split; [exact Hst|].
        cbn [app bytes_read forallb wait_call].
        rewrite Z.eqb_refl, Hrcv, Hto, concat_snoc, len_app, <- app_assoc.
        repeat split; try assumption; try lia; try (right; reflexivity).
    + apply IH in H.
      destruct H as (evs & w' & Hst & Hrcv & Hto & Hall & Hexit).
      cbn [received to_read] in Hrcv, Hto.
      rewrite after_after in Hst.
      eexists. exists w'. split; [exact Hst|].
      cbn [app bytes_read forallb wait_call].
      rewrite Z.eqb_refl, Hrcv, Hto, concat_snoc, len_app, <- app_assoc.
      repeat split; try assumption; try lia;
        try (rewrite Hto in Hexit; destruct Hexit; [left; lia | congruence]).
  - rewrite called_after in H.
    destruct (Qgt_bool (_timeout self) 0) eqn:ET.
    + unfold call_monotonic in H. cbn [_the_interface after] in H.
      destruct (time_monotonic w1) as [t' w4] eqn:Et'.
      rewrite called_after, after_after in H. cbn [app] in H.
      destruct (Qgt_bool _ (_timeout self)) eqn:Ex.
      * injection H as <- <-.
        eexists. exists w4. split; [reflexivity|].
        cbn [bytes_read forallb wait_call].
        rewrite Z.eqb_refl, app_nil_r. change (len []) with 0.
        repeat split; try lia; try (right; reflexivity).
      * apply IH in H.
        destruct H as (evs & w' & Hst & Hrcv & Hto & Hall & Hexit).
        rewrite after_after in Hst.
        eexists. exists w'. split; [exact Hst|].
        cbn [app bytes_read forallb wait_call].
        rewrite Z.eqb_refl.
        repeat split; try assumption; try (right; reflexivity).
    + apply IH in H.
      destruct H as (evs & w' & Hst & Hrcv & Hto & Hall & Hexit).
      rewrite after_after in Hst.
      eexists. exists w'. split; [exact Hst|].
      cbn [app bytes_read forallb wait_call].
      rewrite Z.eqb_refl.
      repeat split; try assumption;
        try (destruct Hexit; [left; assumption | congruence]).
Qed.

(** X1: [recv] loses no byte and invents none.  Whenever it returns, in
    either mode and for every [bufsize], the bytes returned followed by
    the bytes left in the buffer are the bytes that were buffered
    followed by the bytes the interface handed over during the call;
    the registry and the other attributes of the socket are unchanged,
    and every call made is a poll or a read on the socket's own slot or
    a reading of the clock. *)
Theorem recv_keeps_every_byte
    (fuel : nat) self (bufsize : Z) st (ret : bytes) self' st' :
  recv fuel self bufsize st = Some (ret, self', st') ->
  exists evs w',
    st' = after st w' evs
    /\ self' = set_buffer self (_buffer self')
    /\ ret ++ _buffer self' = _buffer self ++ bytes_read evs
    /\ forallb (wait_call (_socknum self)) evs = true.
Proof.
  unfold recv. destruct (bufsize =? 0).
  - destruct (drain_loop fuel self st) as [[self1 st1]|] eqn:E; [|discriminate].
    intros [= <- <- <-].
    apply drain_loop_inv in E.
    destruct E as (evs & w' & Hst & Hself & Hall & _).
    exists evs, w'. subst self1.
    cbn [set_buffer _buffer _sock_type _timeout _socknum].
    rewrite app_nil_r. repeat split; assumption.
  - unfold call_monotonic.
    destruct (time_monotonic (_the_interface st)) as [t w] eqn:Et.
    destruct (recv_loop fuel self _ _) as [[v1 st1]|] eqn:E; [|discriminate].
    apply recv_loop_inv in E.
    destruct E as (evs & w' & Hst & Hrcv & _ & Hall & _).
    cbn [received List.concat app] in Hrcv.
    rewrite called_after, after_after in Hst. cbn [app] in Hst.
    rewrite Hrcv.
    destruct (len _ =? bufsize); intros [= <- <- <-];
      exists (Call_monotonic t :: evs), w';
      cbn [set_buffer _buffer _sock_type _timeout _socknum bytes_read forallb
             wait_call andb];
      repeat split; try assumption.
    + apply app_nil_r.
    + unfold slice_to, slice_from. apply firstn_skipn.
Qed.

(** X2: bounded [recv] never returns more than it was asked for, and it
    returns fewer bytes only for a socket with a positive timeout, the
    buffer then being empty: without a timeout, whenever it returns it
    returns [bufsize] bytes. *)
Theorem recv_returns_at_most_bufsize
    (fuel : nat) self (bufsize : Z) st (ret : bytes) self' st' :
  0 < bufsize ->
  recv fuel self bufsize st = Some (ret, self', st') ->
  len ret <= bufsize
  /\ (len ret < bufsize -> (0 < _timeout self)%Q /\ _buffer self' = []).
Proof.
  intros Hpos. unfold recv.
  destruct (Z.eqb_spec bufsize 0) as [|_]; [lia|].
  unfold call_monotonic.
  destruct (time_monotonic (_the_interface st)) as [t w] eqn:Et.
  destruct (recv_loop fuel self _ _) as [[v1 st1]|] eqn:E; [|discriminate].
  apply recv_loop_inv in E.
  destruct E as (evs & w' & _ & Hrcv & Hto & _ & Hexit).
  cbn [received to_read List.concat app] in Hrcv, Hto.
  rewrite Hrcv.
  set (buf := _buffer self ++ bytes_read evs).
  assert (Hlen : to_read v1 = bufsize - len buf)
    by (subst buf; rewrite len_app; lia).
  destruct (Z.eqb_spec (len buf) bufsize) as [Heq|Hne];
    intros [= <- <- <-]; cbn [set_buffer _buffer].
  - split; [lia|]. intros; lia.
  - rewrite slice_to_firstn, slice_from_skipn by lia.
    assert (Hfirst : len (firstn (Z.to_nat bufsize) buf)
                     = Z.min bufsize (len buf))
      by (unfold len; rewrite length_firstn; lia).
    split; [lia|].
    intros Hshort.
    assert (Hbuf : len buf < bufsize) by lia.
    split.
    + destruct Hexit as [Hfull|HT]; [lia|].
      apply Qgt_bool_true. exact HT.
    + apply skipn_all2. unfold len in Hbuf. lia.
Qed.

(** X3: a negative [bufsize].  [recv(-k)] polls nothing: it returns the
    buffered bytes without their last [k], which stay buffered (all of
    them stay when fewer than [k] are buffered), and its only call
    reads the clock. *)
Theorem recv_negative_bufsize self st (k : Z) :
  0 < k ->
  forall fuel,
  exists t w,
    time_monotonic (_the_interface st) = (t, w)
    /\ recv fuel self (- k) st
       = Some (firstn (Z.to_nat (len (_buffer self) - k)) (_buffer self),
               set_buffer self
                 (skipn (Z.to_nat (len (_buffer self) - k)) (_buffer self)),
               after st w [Call_monotonic t]).
Proof.
  intros Hk fuel.
  destruct (time_monotonic (_the_interface st)) as [t w] eqn:Et.
  exists t, w. split; [reflexivity|].
  unfold recv, call_monotonic. rewrite Et.
  destruct (Z.eqb_spec (- k) 0) as [|_]; [lia|].
  rewrite recv_loop_done
    by (cbn [to_read]; pose proof (len_nonneg (_buffer self)); lia).
  cbn [received List.concat]. rewrite app_nil_r.
  destruct (Z.eqb_spec (len (_buffer self)) (- k)) as [Heq|_];
    [pose proof (len_nonneg (_buffer self)); lia|].
  unfold slice_to, slice_from, slice_bound.
  destruct (Z.ltb_spec (- k) 0); [|lia].
  replace (Z.to_nat (Z.max 0 (Z.of_nat (List.length (_buffer self)) + - k)))
    with (Z.to_nat (len (_buffer self) - k)) by (unfold len; lia).
  reflexivity.
Qed.

(** X4: two bounded reads in a row out of the buffer.  When [a + b]
    bytes or more are buffered, [recv(a)] and then [recv(b)] return the
    first [a] bytes and the [b] bytes after them, keep the others, and
    make no call but the two readings of the clock. *)
Theorem recv_twice_from_buffer self st (a b : Z) :
  0 < a -> 0 < b -> a + b <= len (_buffer self) ->
  forall fuel fuel',
  exists t w self1 t' w',
    recv fuel self a st
    = Some (firstn (Z.to_nat a) (_buffer self), self1,
            after st w [Call_monotonic t])
    /\ recv fuel' self1 b (after st w [Call_monotonic t])
       = Some (firstn (Z.to_nat b) (skipn (Z.to_nat a) (_buffer self)),
               set_buffer self (skipn (Z.to_nat (a + b)) (_buffer self)),
               after st w' [Call_monotonic t; Call_monotonic t']).
Proof.
  intros Ha Hb Hab fuel fuel'.
  assert (Hserved : forall s (s0 : State W) n f,
             0 < n -> n <= len (_buffer s) ->
             exists t w,
               time_monotonic (_the_interface s0) = (t, w)
               /\ recv f s n s0
                  = Some (firstn (Z.to_nat n) (_buffer s),
                          set_buffer s (skipn (Z.to_nat n) (_buffer s)),
                          after s0 w [Call_monotonic t])).
  { intros s s0 n f Hn Hle.
    destruct (time_monotonic (_the_interface s0)) as [t w] eqn:Et.
    exists t, w. split; [reflexivity|].
    unfold recv, call_monotonic. rewrite Et.
    destruct (Z.eqb_spec n 0) as [|_]; [lia|].
    rewrite recv_loop_done by (cbn [to_read]; lia).
    cbn [received List.concat]. rewrite app_nil_r.
    destruct (Z.eqb_spec (len (_buffer s)) n) as [Heq|Hne].
    - rewrite firstn_all2, skipn_all2 by (unfold len in Heq; lia).
      reflexivity.
    - rewrite slice_to_firstn, slice_from_skipn by lia. reflexivity. }
  destruct (Hserved self st a fuel Ha ltac:(lia)) as (t & w & _ & Hrun).
  set (self1 := set_buffer self (skipn (Z.to_nat a) (_buffer self))) in *.
  assert (Hrest : b <= len (_buffer self1))
    by (subst self1; cbn [set_buffer _buffer]; unfold len in *;
        rewrite length_skipn; lia).
  destruct (Hserved self1 (after st w [Call_monotonic t]) b fuel' Hb Hrest)
    as (t' & w' & _ & Hrun').
  exists t, w, self1, t', w'. split; [exact Hrun|].
  rewrite Hrun'. subst self1.
  cbn [set_buffer _buffer _sock_type _timeout _socknum].
  rewrite after_after, skipn_skipn.
  replace (Z.to_nat b + Z.to_nat a)%nat with (Z.to_nat (a + b)) by lia.
  reflexivity.
Qed.

Lemma readline_loop_inv (fuel : nat) :
  forall self stamp0 st r self' st',
    readline_loop fuel self stamp0 st = Some (r, self', st') ->
    exists evs w',
      st' = after st w' evs
      /\ self' = set_buffer self (_buffer self ++ bytes_read evs)
      /\ match r with
         | Ok _ =>
             bytes_contains CRLF (_buffer self') = true
             /\ forallb (wait_call (_socknum self)) evs = true
         | Raise e =>
             e = incomplete
             /\ Qgt_bool (_timeout self) 0 = true
             /\ bytes_contains CRLF (_buffer self') = false
             /\ exists evs0 c,
                  evs = evs0 ++ [Call_socket_close (_socknum self) c]
                  /\ forallb (wait_call (_socknum self)) evs0 = true
         end.
Proof.
  assert (Hdone : forall self st r self' st',
             bytes_contains CRLF (_buffer self) = true ->
             Some (Ok tt, self, st) = Some (r, self', st') ->
             exists evs w',
               st' = after st w' evs
               /\ self' = set_buffer self (_buffer self ++ bytes_read evs)
               /\ match r with
                  | Ok _ =>
                      bytes_contains CRLF (_buffer self') = true
                      /\ forallb (wait_call (_socknum self)) evs = true
                  | Raise e =>
                      e = incomplete
                      /\ Qgt_bool (_timeout self) 0 = true
                      /\ bytes_contains CRLF (_buffer self') = false
                      /\ exists evs0 c,
                           evs = evs0 ++ [Call_socket_close (_socknum self) c]
                           /\ forallb (wait_call (_socknum self)) evs0 = true
                  end).
  { intros self st r self' st' Hc [= <- <- <-].
    exists [], (_the_interface st).
    cbn [bytes_read forallb]. rewrite after_nil, app_nil_r, set_buffer_same.
    repeat split. exact Hc. }
  induction fuel as [|fuel IH]; intros self stamp0 st r self' st' H;
    cbn [readline_loop] in H;
    destruct (bytes_contains CRLF (_buffer self)) eqn:Ec;
    try (eapply Hdone; eassumption); [discriminate|].
  unfold available, call_socket_available in H.
  destruct (socket_available (_socknum self) (_the_interface st))
    as [a w1] eqn:Ea.
  destruct (negb (a =? 0)) eqn:Ez.
  - unfold call_socket_read in H. cbn [_the_interface called] in H.
    destruct (socket_read (_socknum self) a w1) as [d w2] eqn:Er.
    rewrite !called_after, !after_after in H. cbn [app] in H.
    apply IH in H. destruct H as (evs & w' & Hst & Hself & Hr).
    rewrite after_after in Hst.
    cbn [set_buffer _buffer _socknum _timeout _sock_type] in Hself, Hr.
    rewrite <- app_assoc in Hself.
    exists (Call_socket_available (_socknum self) a
            :: Call_socket_read (_socknum self) a d :: evs), w'.
    split; [exact Hst|]. split; [exact Hself|].
    destruct r as [u|e].
    + destruct Hr as (Hc & Hall). split; [exact Hc|].
      cbn [forallb wait_call]. rewrite Z.eqb_refl. exact Hall.
    + destruct Hr as (He & HT & Hc & evs0 & c & Hlast & Hall).
      repeat split; try assumption.
      exists (Call_socket_available (_socknum self) a
              :: Call_socket_read (_socknum self) a d :: evs0), c.
      rewrite Hlast. split; [reflexivity|].
      cbn [forallb wait_call]. rewrite Z.eqb_refl. exact Hall.
  - rewrite called_after in H.
    destruct (Qgt_bool (_timeout self) 0) eqn:ET.
    + unfold call_monotonic in H. cbn [_the_interface after] in H.
      destruct (time_monotonic w1) as [t w2] eqn:Et.
      rewrite called_after, after_after in H. cbn [app] in H.
      destruct (Qgt_bool _ (_timeout self)) eqn:Ex.
      * unfold close, call_socket_close in H. cbn [_the_interface after] in H.
        destruct (socket_close (_socknum self) w2) as [c w3] eqn:Ecl.
        rewrite called_after, after_after in H. cbn [app] in H.
        injection H as <- <- <-.
        eexists. exists w3. split; [reflexivity|].
        cbn [bytes_read]. rewrite app_nil_r, set_buffer_same.
        repeat split; try assumption.
        exists [Call_socket_available (_socknum self) a; Call_monotonic t], c.
        split; [reflexivity|].
        cbn [forallb wait_call]. rewrite Z.eqb_refl. reflexivity.
      * apply IH in H. destruct H as (evs & w' & Hst & Hself & Hr).
        rewrite after_after in Hst.
        exists (Call_socket_available (_socknum self) a
                :: Call_monotonic t :: evs), w'.
        split; [exact Hst|]. split; [exact Hself|].
        destruct r as [u|e].
        -- destruct Hr as (Hc & Hall). split; [exact Hc|].
           cbn [forallb wait_call]. rewrite Z.eqb_refl. exact Hall.
        -- destruct Hr as (He & HT & Hc & evs0 & c & Hlast & Hall).
           repeat split; try assumption.
           exists (Call_socket_available (_socknum self) a
                   :: Call_monotonic t :: evs0), c.
           rewrite Hlast. split; [reflexivity|].
           cbn [forallb wait_call]. rewrite Z.eqb_refl. exact Hall.
    + apply IH in H. destruct H as (evs & w' & Hst & Hself & Hr).
      rewrite after_after in Hst.
      exists (Call_socket_available (_socknum self) a :: evs), w'.
      split; [exact Hst|]. split; [exact Hself|].
      destruct r as [u|e].
      * destruct Hr as (Hc & Hall). split; [exact Hc|].
        cbn [forallb wait_call]. rewrite Z.eqb_refl. exact Hall.
      * destruct Hr as (He & HT & _). congruence.
Qed.

Lemma first_crlf_prefix_has_none (pre post : bytes) :
  (forall a c, pre ++ CRLF ++ post = a ++ CRLF ++ c ->
               (List.length pre <= List.length a)%nat) ->
  bytes_contains CRLF pre = false.
Proof.
  intros Hfirst.
  destruct (bytes_contains CRLF pre) eqn:Ec; [|reflexivity].
  destruct (bytes_split1_spec CRLF pre Ec) as (a & c & _ & Heq & _).
  specialize (Hfirst a (c ++ CRLF ++ post)).
  assert (Hlen : List.length pre = (List.length a + 2 + List.length c)%nat)
    by (rewrite Heq at 1; rewrite !length_app; cbn [List.length CRLF]; lia).
  rewrite Heq in Hfirst at 1. rewrite <- !app_assoc in Hfirst.
  specialize (Hfirst eq_refl). lia.
Qed.

(** X5: [readline] loses no byte.  Whenever it returns a line, the line,
    a CRLF and the bytes left in the buffer are the bytes that were
    buffered followed by the bytes handed over during the call, and the
    line holds no CRLF; whenever it raises, the error is the one of the
    timeout, and the bytes read so far are all in the buffer, after the
    bytes that were buffered. *)
Theorem readline_keeps_every_byte
    (fuel : nat) self st (r : result bytes) self' st' :
  readline fuel self st = Some (r, self', st') ->
  exists evs w',
    st' = after st w' evs
    /\ self' = set_buffer self (_buffer self')
    /\ match r with
       | Ok line =>
           line ++ CRLF ++ _buffer self' = _buffer self ++ bytes_read evs
           /\ bytes_contains CRLF line = false
       | Raise e =>
           e = incomplete
           /\ _buffer self' = _buffer self ++ bytes_read evs
           /\ bytes_contains CRLF (_buffer self') = false
       end.
Proof.
  unfold readline, call_monotonic.
  destruct (time_monotonic (_the_interface st)) as [t w] eqn:Et.
  destruct (readline_loop fuel self t _) as [[[r1 self1] st1]|] eqn:E;
    [|discriminate].
  apply readline_loop_inv in E.
  destruct E as (evs & w' & Hst & Hself & Hr).
  rewrite called_after, after_after in Hst. cbn [app] in Hst.
  destruct r1 as [u|e].
  - destruct Hr as (Hc & _).
    destruct (bytes_split1_spec CRLF (_buffer self1) Hc)
      as (pre & post & Hsp & Heq & Hfirst).
    rewrite Hsp. intros [= <- <- <-].
    exists (Call_monotonic t :: evs), w'.
    split; [exact Hst|].
    subst self1. cbn [set_buffer _buffer _sock_type _timeout _socknum] in *.
    repeat split.
    + cbn [bytes_read]. symmetry. exact Heq.
    + apply first_crlf_prefix_has_none with post.
      rewrite <- Heq. exact Hfirst.
  - destruct Hr as (He & _ & Hc & _).
    intros [= <- <- <-].
    exists (Call_monotonic t :: evs), w'.
    split; [exact Hst|].
    subst self1. cbn [set_buffer _buffer _sock_type _timeout _socknum] in *.
    repeat split; assumption.
Qed.

(** X6: without a timeout [readline] never gives up: for a socket whose
    timeout is zero, whenever [readline] returns it returns a line, it
    has not called [socket_close], and its calls are the reading of the
    clock at its start and polls and reads on the socket's own slot. *)
Theorem readline_without_timeout_never_raises
    (fuel : nat) self st (r : result bytes) self' st' :
  (_timeout self <= 0)%Q ->
  readline fuel self st = Some (r, self', st') ->
  exists line evs w',
    r = Ok line
    /\ st' = after st w' evs
    /\ count is_close evs = O
    /\ count is_monotonic evs = 1%nat
    /\ forallb (wait_call (_socknum self)) evs = true
    /\ exists t evs1,
         evs = Call_monotonic t :: evs1 /\ count is_monotonic evs1 = O.
Proof.
  intros HT.
  assert (HT' : Qgt_bool (_timeout self) 0 = false).
  { destruct (Qgt_bool (_timeout self) 0) eqn:E; [|reflexivity].
    apply Qgt_bool_true in E. exfalso. apply (Qlt_not_le _ _ E HT). }
  assert (Hloop : forall f s stamp0 (s0 : State W) r1 s1 s0',
             _timeout s = _timeout self ->
             readline_loop f s stamp0 s0 = Some (r1, s1, s0') ->
             exists evs w',
               r1 = Ok tt /\ s0' = after s0 w' evs
               /\ count is_close evs = O /\ count is_monotonic evs = O
               /\ forallb (wait_call (_socknum s)) evs = true).
  { induction f as [|f IH]; intros s stamp0 s0 r1 s1 s0' Hs H;
      cbn [readline_loop] in H;
      destruct (bytes_contains CRLF (_buffer s)) eqn:Ec;
      try discriminate;
      try (injection H as <- <- <-; exists [], (_the_interface s0);
           rewrite after_nil; repeat split; reflexivity).
    unfold available, call_socket_available in H.
    destruct (socket_available (_socknum s) (_the_interface s0))
      as [a w1] eqn:Ea.
    destruct (negb (a =? 0)) eqn:Ez.
    - unfold call_socket_read in H. cbn [_the_interface called] in H.
      destruct (socket_read (_socknum s) a w1) as [d w2] eqn:Er.
      rewrite !called_after, !after_after in H. cbn [app] in H.
      apply IH in H; [|exact Hs].
      destruct H as (evs & w' & Hr & Hst & Hcl & Hm & Hall).
      rewrite after_after in Hst. cbn [set_buffer _socknum] in Hall.
      exists (Call_socket_available (_socknum s) a
              :: Call_socket_read (_socknum s) a d :: evs), w'.
      unfold count in *.
      cbn [filter is_close is_monotonic forallb wait_call].
      rewrite Z.eqb_refl. repeat split; assumption.
    - rewrite Hs, HT', called_after in H.
      apply IH in H; [|exact Hs].
      destruct H as (evs & w' & Hr & Hst & Hcl & Hm & Hall).
      rewrite after_after in Hst.
      exists (Call_socket_available (_socknum s) a :: evs), w'.
      unfold count in *.
      cbn [filter is_close is_monotonic forallb wait_call].
      rewrite Z.eqb_refl. repeat split; assumption. }
  unfold readline, call_monotonic.
  destruct (time_monotonic (_the_interface st)) as [t w] eqn:Et.
  destruct (readline_loop fuel self t _) as [[[r1 self1] st1]|] eqn:E;
    [|discriminate].
  pose proof E as E'. apply readline_loop_inv in E'.
  destruct E' as (evs' & w0 & _ & _ & Hr).
  apply Hloop in E; [|reflexivity].
  destruct E as (evs & w' & Hr1 & Hst & Hcl & Hm & Hall). subst r1.
  destruct Hr as (Hc & _).
  destruct (bytes_split1_spec CRLF (_buffer self1) Hc)
    as (pre & post & Hsp & _).
  rewrite Hsp. intros [= <- <- <-].
  rewrite called_after, after_after in Hst. cbn [app] in Hst.
  exists pre, (Call_monotonic t :: evs), w'.
  unfold count in *.
  cbn [filter is_close is_monotonic forallb wait_call List.length].
  repeat split; try assumption.
  - rewrite Hm. reflexivity.
  - exists t, evs. split; [reflexivity | exact Hm].
Qed.

End Receiving.

(** ** Lines, timeouts and connections *)

Lemma Qlt_bool_true (x y : Q) : Qlt_bool x y = true <-> (x < y)%Q.
Proof. unfold Qlt_bool. apply (Qgt_bool_true y x). Qed.

Lemma bytes_find_first_crlf (line rest : bytes) :
  bytes_contains CRLF line = false ->
  bytes_find CRLF (line ++ CRLF ++ rest) = Some (List.length line).
Proof.
  induction line as [|x l IH]; intros Hc; [reflexivity|].
  unfold bytes_contains in Hc. rewrite bytes_find_unfold in Hc.
  destruct (startswith CRLF (x :: l)) eqn:Es; [discriminate|].
  assert (Hl : bytes_contains CRLF l = false)
    by (unfold bytes_contains; destruct (bytes_find CRLF l);
        [discriminate | reflexivity]).
  rewrite bytes_find_unfold. cbn [app List.length].
  replace (startswith CRLF (x :: l ++ CRLF ++ rest)) with false.
  - rewrite (IH Hl). reflexivity.
  - symmetry. destruct l as [|y l'].
    + cbn. apply andb_false_r.
    + exact Es.
Qed.

Section Lines.

Context {W : Type} {iface : Interface W}.

Implicit Types (st : State W) (self : socket).

Lemma readline_buffered_line self st (line rest : bytes) :
  bytes_contains CRLF line = false ->
  _buffer self = line ++ CRLF ++ rest ->
  forall fuel t w,
    time_monotonic (_the_interface st) = (t, w) ->
    readline fuel self st
    = Some (Ok line, set_buffer self rest, after st w [Call_monotonic t]).
Proof.
  intros Hline Hbuf fuel t w Et.
  pose proof (bytes_find_first_crlf line rest Hline) as Hfind.
  assert (Hc : bytes_contains CRLF (_buffer self) = true)
    by (unfold bytes_contains; rewrite Hbuf, Hfind; reflexivity).
  unfold readline, call_monotonic. rewrite Et.
  assert (Hloop : readline_loop fuel self t (called st w (Call_monotonic t))
                  = Some (Ok tt, self, called st w (Call_monotonic t)))
    by (destruct fuel; cbn [readline_loop]; rewrite Hc; reflexivity).
  rewrite Hloop. unfold bytes_split1. rewrite Hbuf, Hfind.
  rewrite firstn_app, firstn_all, Nat.sub_diag. cbn [firstn].
  rewrite app_nil_r.
  rewrite skipn_app, skipn_all2 by (cbn [List.length CRLF]; lia).
  replace (List.length line + List.length CRLF - List.length line)%nat
    with 2%nat by (cbn [List.length CRLF]; lia).
  cbn [skipn CRLF app]. reflexivity.
Qed.

(** X10: a line put in the buffer is read back.  When the buffer holds
    [line], a CRLF and [rest], and [line] holds no CRLF, [readline]
    returns [line] and leaves [rest], its only call being the reading
    of the clock; when [rest] in turn begins with a second such line,
    the next [readline] returns that one: buffered lines come out one
    by one, in order, without a poll. *)
Theorem readline_returns_buffered_lines_in_order
    self st (line1 line2 rest : bytes) :
  bytes_contains CRLF line1 = false ->
  bytes_contains CRLF line2 = false ->
  _buffer self = line1 ++ CRLF ++ line2 ++ CRLF ++ rest ->
  forall fuel fuel',
  exists t w t' w',
    readline fuel self st
    = Some (Ok line1, set_buffer self (line2 ++ CRLF ++ rest),
            after st w [Call_monotonic t])
    /\ readline fuel' (set_buffer self (line2 ++ CRLF ++ rest))
                (after st w [Call_monotonic t])
       = Some (Ok line2, set_buffer self rest,
               after st w' [Call_monotonic t; Call_monotonic t']).
Proof.
  intros H1 H2 Hbuf fuel fuel'.
  destruct (time_monotonic (_the_interface st)) as [t w] eqn:Et.
  destruct (time_monotonic w) as [t' w'] eqn:Et'.
  exists t, w, t', w'. split.
  - apply readline_buffered_line; assumption.
  - rewrite (readline_buffered_line
               (set_buffer self (line2 ++ CRLF ++ rest))
               (after st w [Call_monotonic t]) line2 rest H2 eq_refl
               fuel' t' w' Et').
    rewrite after_after. reflexivity.
Qed.

(** X11: [settimeout] and [gettimeout].  A negative value is refused
    with the exception "Timeout period should be non-negative." and the
    socket keeps the timeout it had; any other value is stored, is what
    [gettimeout] returns afterwards, and nothing else of the socket
    changes. *)
Theorem settimeout_stores_or_refuses self (value : Q) :
  ((value < 0)%Q ->
     settimeout self value
     = (Raise (Exception "Timeout period should be non-negative."), self))
  /\ ((0 <= value)%Q ->
      settimeout self value = (Ok tt, set_timeout self value)
      /\ gettimeout (snd (settimeout self value)) = value
      /\ _buffer (snd (settimeout self value)) = _buffer self
      /\ _socknum (snd (settimeout self value)) = _socknum self).
Proof.
  unfold settimeout. split.
  - intros Hneg. apply Qlt_bool_true in Hneg. rewrite Hneg. reflexivity.
  - intros Hpos.
    destruct (Qlt_bool value 0) eqn:E.
    + apply Qlt_bool_true in E. exfalso. apply (Qlt_not_le _ _ E Hpos).
    + repeat split.
Qed.

(** X12: [connect] without TLS.  For an address [(host, port)] it calls
    [socket_connect] once, for the socket's own slot and with the type
    of the socket as connection mode: when the interface answers true
    the buffer is emptied, when it answers false the RuntimeError
    "Failed to connect to host" is raised with [host] and the buffer is
    kept.  An address that is not a pair raises ValueError before any
    call. *)
Theorem connect_asks_the_interface
    self (address : list pyobj) (conntype : option Z) st :
  conntype <> Some 0x03 ->
  (forall host port,
     address = [host; port] ->
     exists ok w,
       socket_connect (_socknum self) host port (_sock_type self)
                      (_the_interface st) = (ok, w)
       /\ connect self address conntype st
          = (if ok then Ok tt
             else Raise (RuntimeError "Failed to connect to host" [host]),
             if ok then set_buffer self [] else self,
             after st w [Call_socket_connect (_socknum self) host port
                           (_sock_type self) ok]))
  /\ (List.length address <> 2%nat ->
      exists msg,
        connect self address conntype st = (Raise (ValueError msg), self, st)).
Proof.
  intros Htls.
  assert (Hnot : match conntype with Some c => c =? 3 | None => false end
                 = false).
  { destruct conntype as [c|]; [|reflexivity].
    destruct (Z.eqb_spec c 3); [congruence | reflexivity]. }
  unfold connect. rewrite Hnot. split.
  - intros host port ->. unfold call_socket_connect, socknum.
    destruct (socket_connect (_socknum self) host port (_sock_type self)
                             (_the_interface st)) as [ok w] eqn:E.
    exists ok, w. split; [reflexivity|]. destruct ok; reflexivity.
  - intros Hlen.
    destruct address as [|h [|p [|x rest]]];
      try (eexists; reflexivity).
    cbn [List.length] in Hlen. lia.
Qed.

End Lines.

(** ** [inet_aton] *)

Lemma split_dots_length (s : string) :
  forall cur, List.length (split_dots cur s) = S (dots s).
Proof.
  induction s as [|c s IH]; intros cur; cbn [split_dots dots];
    [reflexivity|].
  destruct (Ascii.eqb c "."); cbn [List.length]; rewrite IH; reflexivity.
Qed.

Lemma ints_of_length (py_int : string -> option Z) (items : list string) :
  forall l, ints_of py_int items = Some l ->
            List.length l = List.length items.
Proof.
  induction items as [|s items IH]; intros l; cbn [ints_of].
  - intros [= <-]. reflexivity.
  - destruct (py_int s) as [z|]; [|discriminate].
    destruct (ints_of py_int items) as [l'|]; [|discriminate].
    intros [= <-]. cbn [List.length]. rewrite (IH l' eq_refl). reflexivity.
Qed.

Lemma bytearray_values (l : list Z) :
  forall b, bytearray l = Some b ->
            map byte_val b = l /\ Forall (fun x => 0 <= x < 256) l.
Proof.
  induction l as [|x l IH]; intros b; cbn [bytearray].
  - intros [= <-]. split; [reflexivity | constructor].
  - destruct ((0 <=? x) && (x <? 256)) eqn:Hx; [|discriminate].
    apply andb_true_iff in Hx as [Hlo Hhi].
    apply Z.leb_le in Hlo. apply Z.ltb_lt in Hhi.
    destruct (Byte.of_N (Z.to_N x)) as [c|] eqn:Ec; [|discriminate].
    destruct (bytearray l) as [bs|]; [|discriminate].
    intros [= <-]. destruct (IH bs eq_refl) as [Hmap Hall].
    split.
    + cbn [map]. rewrite Hmap. f_equal.
      unfold byte_val. apply Byte.to_of_N in Ec. rewrite Ec. lia.
    + constructor; [lia | assumption].
Qed.

(** X13: [inet_aton] leaves its result in the receive buffer.  When it
    returns, the bytes it returns are the integers of the fields of
    [ip_string] between the dots, one byte for each field and each in
    0..255, and they have replaced whatever the receive buffer of the
    socket held; nothing else of the socket changes. *)
Theorem inet_aton_overwrites_the_buffer
    (py_int : string -> option Z) (self : socket) (ip_string : string)
    (b : bytes) (self' : socket) :
  inet_aton py_int self ip_string = (Ok b, self') ->
  self' = set_buffer self b
  /\ _buffer self' = b
  /\ List.length b = S (dots ip_string)
  /\ ints_of py_int (split_dots EmptyString ip_string) = Some (map byte_val b)
  /\ Forall (fun x => 0 <= x < 256) (map byte_val b).
Proof.
  unfold inet_aton.
  destruct (ints_of py_int (split_dots EmptyString ip_string)) as [l|] eqn:El;
    [|discriminate].
  destruct (bytearray l) as [b'|] eqn:Eb; [|discriminate].
  intros [= <- <-].
  destruct (bytearray_values l b' Eb) as [Hmap Hall].
  repeat split.
  - rewrite <- (length_map byte_val), Hmap, (ints_of_length _ _ _ El).
    apply split_dots_length.
  - rewrite Hmap. reflexivity.
  - rewrite Hmap. exact Hall.
Qed.

Lemma inet_aton_overwrites_the_buffer_witness :
  let self := a_socket (bytes_of "stale") 0%Q in
  exists b,
    inet_aton decimal self "10.0.0.255" = (Ok b, set_buffer self b)
    /\ map byte_val b = [10; 0; 0; 255].
Proof.
  intros self.
  destruct (inet_aton decimal self "10.0.0.255") as [[b|e] self'] eqn:E;
    [|discriminate].
  destruct (inet_aton_overwrites_the_buffer decimal self "10.0.0.255" b self' E)
    as (Hself & _ & _ & Hints & _).
  exists b. split; [rewrite Hself; reflexivity|].
  injection Hints as Hints. symmetry. exact Hints.
Defined.

(** ** The further statements on the simulated modem *)

(** "xy" is buffered, 5 bytes are asked for with a timeout of 2 seconds
    and only "A" arrives in time. *)
Lemma recv_keeps_every_byte_witness :
  let self := a_socket (bytes_of "xy") 2%Q in
  let st := fresh [] (modem (at_time 1%Q (bytes_of "A")
                             ++ at_time 9%Q (bytes_of "B"))) in
  exists self' st' evs w',
    recv 3 self 5 st = Some (bytes_of "xyA", self', st')
    /\ st' = after st w' evs
    /\ bytes_of "xyA" ++ _buffer self' = _buffer self ++ bytes_read evs
    /\ forallb (wait_call (_socknum self)) evs = true.
Proof.
  intros self st.
  destruct (recv 3 self 5 st) as [[[ret self'] st']|] eqn:E;
    [|vm_compute in E; discriminate E].
  assert (Hret : ret = bytes_of "xyA")
    by (pose proof E as E0; vm_compute in E0; injection E0 as <- _ _;
        reflexivity).
  subst ret.
  destruct (recv_keeps_every_byte 3 self 5 st _ self' st' E)
    as (evs & w' & Hst & _ & Hbytes & Hall).
  exists self', st', evs, w'. repeat split; assumption.
Defined.

Lemma recv_returns_at_most_bufsize_witness :
  let self := a_socket (bytes_of "xy") 2%Q in
  let st := fresh [] (modem (at_time 1%Q (bytes_of "A")
                             ++ at_time 9%Q (bytes_of "B"))) in
  exists self' st',
    recv 3 self 5 st = Some (bytes_of "xyA", self', st')
    /\ len (bytes_of "xyA") <= 5
    /\ (0 < _timeout self)%Q /\ _buffer self' = [].
Proof.
  intros self st.
  destruct (recv 3 self 5 st) as [[[ret self'] st']|] eqn:E;
    [|vm_compute in E; discriminate E].
  assert (Hret : ret = bytes_of "xyA")
    by (pose proof E as E0; vm_compute in E0; injection E0 as <- _ _;
        reflexivity).
  subst ret.
  destruct (recv_returns_at_most_bufsize 3 self 5 st _ self' st'
              ltac:(reflexivity) E) as (Hle & Hshort).
  exists self', st'. split; [reflexivity|]. split; [exact Hle|].
  apply Hshort. reflexivity.
Defined.

(** Five bytes are buffered and [recv(-2)] is called. *)
Lemma recv_negative_bufsize_witness :
  let self := a_socket (bytes_of "abcde") 0%Q in
  let st := fresh [] (modem []) in
  exists t w,
    recv 0 self (- 2) st
    = Some (firstn 3 (bytes_of "abcde"),
            set_buffer self (skipn 3 (bytes_of "abcde")),
            after st w [Call_monotonic t]).
Proof.
  intros self st.
  destruct (recv_negative_bufsize self st 2 ltac:(reflexivity) O)
    as (t & w & _ & Hrun).
  exists t, w. exact Hrun.
Defined.

Lemma recv_twice_from_buffer_witness :
  let self := a_socket (bytes_of "abcde") 0%Q in
  let st := fresh [] (modem []) in
  exists t w self1 t' w',
    recv 0 self 2 st
    = Some (firstn 2 (bytes_of "abcde"), self1, after st w [Call_monotonic t])
    /\ recv 0 self1 2 (after st w [Call_monotonic t])
       = Some (firstn 2 (skipn 2 (bytes_of "abcde")),
               set_buffer self (skipn 4 (bytes_of "abcde")),
               after st w' [Call_monotonic t; Call_monotonic t']).
Proof.
  intros self st.
  exact (recv_twice_from_buffer self st 2 2 ltac:(reflexivity)
           ltac:(reflexivity) ltac:(discriminate) O O).
Defined.

(** "AB" arrives and then nothing: [readline] gives up after the timeout
    of 1 second, and "AB" is in the buffer. *)
Lemma readline_keeps_every_byte_witness :
  let self := a_socket [] 1%Q in
  let st := fresh [] (modem (at_time 1%Q (bytes_of "AB"))) in
  exists self' st' evs w',
    readline 3 self st = Some (Raise incomplete, self', st')
    /\ st' = after st w' evs
    /\ _buffer self' = _buffer self ++ bytes_read evs
    /\ _buffer self' = bytes_of "AB".
Proof.
  intros self st.
  destruct (readline 3 self st) as [[[r self'] st']|] eqn:E;
    [|vm_compute in E; discriminate E].
  assert (Hval : r = Raise incomplete /\ _buffer self' = bytes_of "AB")
    by (pose proof E as E0; vm_compute in E0; injection E0 as <- <- _;
        split; reflexivity).
  destruct Hval as [-> Hbuf].
  destruct (readline_keeps_every_byte 3 self st _ self' st' E)
    as (evs & w' & Hst & _ & _ & Hbytes & _).
  exists self', st', evs, w'. repeat split; assumption.
Defined.

(** No timeout, and the line "AB" arrives in two pieces. *)
Lemma readline_without_timeout_never_raises_witness :
  let self := a_socket [] 0%Q in
  let st := fresh [] (modem (at_time 1%Q (bytes_of "AB")
                             ++ at_time 5%Q CRLF)) in
  exists self' st' line evs w',
    readline 4 self st = Some (Ok line, self', st')
    /\ st' = after st w' evs
    /\ count is_close evs = O
    /\ count is_monotonic evs = 1%nat.
Proof.
  intros self st.
  destruct (readline 4 self st) as [[[r self'] st']|] eqn:E;
    [|vm_compute in E; discriminate E].
  destruct (readline_without_timeout_never_raises 4 self st r self' st'
              ltac:(discriminate) E)
    as (line & evs & w' & -> & Hst & Hcl & Hm & _).
  exists self', st', line, evs, w'. repeat split; assumption.
Defined.

(** Two lines and the beginning of a third are buffered. *)
Lemma readline_returns_buffered_lines_in_order_witness :
  let self := a_socket (bytes_of "AB" ++ CRLF ++ bytes_of "CD" ++ CRLF
                        ++ bytes_of "EF") 0%Q in
  let st := fresh [] (modem []) in
  exists t w t' w',
    readline 0 self st
    = Some (Ok (bytes_of "AB"),
            set_buffer self (bytes_of "CD" ++ CRLF ++ bytes_of "EF"),
            after st w [Call_monotonic t])
    /\ readline 0 (set_buffer self (bytes_of "CD" ++ CRLF ++ bytes_of "EF"))
                (after st w [Call_monotonic t])
       = Some (Ok (bytes_of "CD"), set_buffer self (bytes_of "EF"),
               after st w' [Call_monotonic t; Call_monotonic t']).
Proof.
  intros self st.
  exact (readline_returns_buffered_lines_in_order self st
           (bytes_of "AB") (bytes_of "CD") (bytes_of "EF")
           ltac:(reflexivity) ltac:(reflexivity) ltac:(reflexivity) O O).
Defined.

Lemma settimeout_stores_or_refuses_witness :
  let self := a_socket [] 2%Q in
  settimeout self (- (1))%Q
  = (Raise (Exception "Timeout period should be non-negative."), self)
  /\ gettimeout (snd (settimeout self 5%Q)) = 5%Q.
Proof.
  intros self. split.
  - apply (settimeout_stores_or_refuses self (- (1))%Q). reflexivity.
  - apply (settimeout_stores_or_refuses self 5%Q). discriminate.
Defined.

Lemma connect_asks_the_interface_witness :
  let self := a_socket (bytes_of "stale") 0%Q in
  let st := fresh [] (modem []) in
  (exists ok w,
     socket_connect (_socknum self) (PyStr "10.0.0.1") (PyInt 80)
                    (_sock_type self) (_the_interface st) = (ok, w)
     /\ connect self [PyStr "10.0.0.1"; PyInt 80] None st
        = (if ok then Ok tt
           else Raise (RuntimeError "Failed to connect to host"
                                    [PyStr "10.0.0.1"]),
           if ok then set_buffer self [] else self,
           after st w [Call_socket_connect (_socknum self) (PyStr "10.0.0.1")
                         (PyInt 80) (_sock_type self) ok]))
  /\ exists msg,
       connect self [PyStr "10.0.0.1"] None st
       = (Raise (ValueError msg), self, st).
Proof.
  intros self st. split.
  - apply (connect_asks_the_interface self [PyStr "10.0.0.1"; PyInt 80]
             None st ltac:(discriminate)).
    reflexivity.
  - apply (connect_asks_the_interface self [PyStr "10.0.0.1"] None st
             ltac:(discriminate)).
    discriminate.
Defined.

(** ** Slots, and bounded reads that are served *)

Lemma wait_calls_on_slot (k : Z) (evs : list Event) :
  forallb (wait_call k) evs = true -> forallb (on_slot k) evs = true.
Proof.
  induction evs as [|e evs IH]; [reflexivity|].
  cbn [forallb]. rewrite !andb_true_iff. intros [He Hall].
  split; [|apply IH; exact Hall].
  destruct e; cbn [wait_call on_slot] in *; congruence.
Qed.

Section Slots.

Context {W : Type} {iface : Interface W}.

Implicit Types (st : State W) (self : socket).

(** X14: a socket keeps to its own slot.  Whatever method of a socket is
    called ([connected], [getpeername], [connect], [send], [recv],
    [readline], [available], [close]), every call it makes of a
    primitive that takes a slot is for the socket's own slot, it never
    calls [get_socket] or [get_host_by_name], and it leaves the
    registry as it was. *)
Theorem socket_methods_keep_to_their_slot
    (fuel : nat) (o : operation) self st st' :
  target o = Some self ->
  run fuel o st = Some st' ->
  exists evs w',
    st' = after st w' evs
    /\ forallb (on_slot (_socknum self)) evs = true.
Proof.
  assert (Hone : forall w e, on_slot (_socknum self) e = true ->
                   exists evs w',
                     called st w e = after st w' evs
                     /\ forallb (on_slot (_socknum self)) evs = true).
  { intros w e He. exists [e], w. split; [reflexivity|].
    cbn [forallb]. rewrite He. reflexivity. }
  destruct o; cbn [target]; intros [= ->]; cbn [run].
  - (* connected *)
    intros [= <-]. unfold connected, call_socket_status, socknum.
    destruct (socket_status _ _) as [r w]. cbn [snd].
    apply Hone. cbn [on_slot]. apply Z.eqb_refl.
  - (* getpeername *)
    intros [= <-]. unfold getpeername, call_remote_ip, socknum.
    destruct (remote_ip _ _) as [r w]. cbn [snd].
    apply Hone. cbn [on_slot]. apply Z.eqb_refl.
  - (* connect *)
    intros [= <-]. unfold connect, call_socket_connect, socknum.
    assert (Hnone : exists evs w',
               st = after st w' evs
               /\ forallb (on_slot (_socknum self)) evs = true)
      by (exists [], (_the_interface st); rewrite after_nil;
          split; reflexivity).
    destruct (match conntype with Some c => c =? 3 | None => false end);
      [exact Hnone|].
    destruct address as [|host [|port [|x rest]]]; try exact Hnone.
    destruct (socket_connect _ _ _ _ _) as [ok w].
    destruct ok; cbn [negb snd]; apply Hone; cbn [on_slot];
      apply Z.eqb_refl.
  - (* send *)
    intros [= <-]. unfold send, call_socket_write.
    apply Hone. cbn [on_slot]. apply Z.eqb_refl.
  - (* recv *)
    unfold recv. destruct (bufsize =? 0).
    + destruct (drain_loop fuel self st) as [[self1 st1]|] eqn:E;
        [|discriminate].
      intros [= <-]. cbn [snd].
      apply drain_loop_inv in E.
      destruct E as (evs & w' & Hst & _ & Hall & _).
      exists evs, w'. split; [exact Hst|].
      apply wait_calls_on_slot. exact Hall.
    + unfold call_monotonic.
      destruct (time_monotonic (_the_interface st)) as [t w].
      destruct (recv_loop fuel self _ _) as [[v1 st1]|] eqn:E;
        [|discriminate].
      apply recv_loop_inv in E.
      destruct E as (evs & w' & Hst & _ & _ & Hall & _).
      rewrite called_after, after_after in Hst.
      destruct (len _ =? bufsize); intros [= <-]; cbn [snd];
        exists ([Call_monotonic t] ++ evs), w';
        (split; [exact Hst|]);
        cbn [app forallb on_slot andb];
        apply wait_calls_on_slot; exact Hall.
  - (* readline *)
    unfold readline, call_monotonic.
    destruct (time_monotonic (_the_interface st)) as [t w].
    destruct (readline_loop fuel self t _) as [[[r self1] st1]|] eqn:E;
      [|discriminate].
    apply readline_loop_inv in E.
    destruct E as (evs & w' & Hst & _ & Hr).
    rewrite called_after, after_after in Hst.
    assert (Hall : forallb (on_slot (_socknum self)) evs = true).
    { destruct r as [u|e].
      - apply wait_calls_on_slot. apply Hr.
      - destruct Hr as (_ & _ & _ & evs0 & c & -> & Hall0).
        rewrite forallb_app. apply wait_calls_on_slot in Hall0.
        rewrite Hall0. cbn [forallb on_slot]. rewrite Z.eqb_refl.
        reflexivity. }
    assert (Hres : exists evs1 w1,
               st1 = after st w1 evs1
               /\ forallb (on_slot (_socknum self)) evs1 = true)
      by (exists ([Call_monotonic t] ++ evs), w'; split; [exact Hst|];
          cbn [app forallb on_slot andb]; exact Hall).
    destruct r as [u|e]; [|intros [= <-]; exact Hres].
    destruct (bytes_split1 CRLF (_buffer self1)) as [|? [|? [|]]];
      intros [= <-]; exact Hres.
  - (* available *)
    intros [= <-]. unfold available, call_socket_available.
    destruct (socket_available _ _) as [r w]. cbn [snd].
    apply Hone. cbn [on_slot]. apply Z.eqb_refl.
  - (* close *)
    intros [= <-]. unfold close, call_socket_close.
    destruct (socket_close _ _) as [r w]. cbn [snd].
    apply Hone. cbn [on_slot]. apply Z.eqb_refl.
Qed.

Lemma recv_loop_fed (n : nat) :
  forall self st need stamp0 rcv ds w',
    0 < need ->
    fed (_socknum self) (_timeout self) n need stamp0 (_the_interface st)
    = Some (ds, w') ->
    forall fuel, (n <= fuel)%nat ->
    exists evs v,
      recv_loop fuel self
        {| to_read := need; received := rcv; stamp := stamp0 |} st
      = Some (v, after st w' evs)
      /\ received v = rcv ++ ds
      /\ to_read v = need - len (List.concat ds)
      /\ to_read v <= 0
      /\ bytes_read evs = List.concat ds.
Proof.
  induction n as [|n IH]; intros self st need stamp0 rcv ds w' Hneed Hf fuel Hfuel;
    [discriminate|].
  destruct fuel as [|fuel]; [lia|].
  cbn [fed] in Hf. cbn [recv_loop to_read received stamp].
  destruct (Z.leb_spec need 0) as [|_]; [lia|].
  unfold available, call_socket_available.
  destruct (socket_available (_socknum self) (_the_interface st))
    as [a w1] eqn:Ea.
  destruct (negb (a =? 0)) eqn:Ez.
  - unfold call_monotonic, call_socket_read. cbn [_the_interface called].
    destruct (time_monotonic w1) as [t w2] eqn:Et.
    cbn [_the_interface called].
    destruct (socket_read (_socknum self) (Z.min need a) w2) as [d w3] eqn:Er.
    rewrite !called_after, !after_after. cbn [app to_read received stamp].
    destruct (Qgt_bool (_timeout self) 0) eqn:ET.
    + cbn [_the_interface after].
      destruct (time_monotonic w3) as [t' w4] eqn:Et'.
      rewrite called_after, after_after. cbn [app].
      destruct (Z.leb_spec (need - len d) 0) as [Hfull|Hmore].
      * injection Hf as <- <-.
        assert (Hend : (if Qgt_bool (float_sub t' t) (_timeout self)
                        then Some ({| to_read := need - len d;
                                      received := rcv ++ [d];
                                      stamp := t |},
                                   after st w4
                                     [Call_socket_available (_socknum self) a;
                                      Call_monotonic t;
                                      Call_socket_read (_socknum self)
                                        (Z.min need a) d;
                                      Call_monotonic t'])
                        else recv_loop fuel self
                               {| to_read := need - len d;
                                  received := rcv ++ [d];
                                  stamp := t |}
                               (after st w4
                                  [Call_socket_available (_socknum self) a;
                                   Call_monotonic t;
                                   Call_socket_read (_socknum self)
                                     (Z.min need a) d;
                                   Call_monotonic t']))
                       = Some ({| to_read := need - len d;
                                  received := rcv ++ [d];
                                  stamp := t |},
                               after st w4
                                 [Call_socket_available (_socknum self) a;
                                  Call_monotonic t;
                                  Call_socket_read (_socknum self)
                                    (Z.min need a) d;
                                  Call_monotonic t']))
          by (destruct (Qgt_bool (float_sub t' t) (_timeout self));
              [reflexivity | apply recv_loop_done; exact Hfull]).
        rewrite Hend. eexists. eexists. split; [reflexivity|].
        cbn [received to_read List.concat bytes_read app].
        rewrite !app_nil_r. repeat split; lia.
      * destruct (Qgt_bool (float_sub t' t) (_timeout self)); [discriminate|].
        destruct (fed (_socknum self) (_timeout self) n (need - len d) t w4)
          as [[ds' w'']|] eqn:Ef; [|discriminate].
        injection Hf as <- <-.
        destruct (IH self
                     (after st w4
                        [Call_socket_available (_socknum self) a;
                         Call_monotonic t;
                         Call_socket_read (_socknum self) (Z.min need a) d;
                         Call_monotonic t'])
                     (need - len d) t (rcv ++ [d]) ds' w'' Hmore Ef fuel
                     ltac:(lia))
          as (evs & v & Hrun & Hrcv & Hto & Hdone & Hb).
        rewrite Hrun, after_after.
        eexists. exists v. split; [reflexivity|].
        cbn [List.concat app bytes_read].
        rewrite Hrcv, Hto, Hb, len_app, <- app_assoc.
        repeat split; lia.
    + destruct (Z.leb_spec (need - len d) 0) as [Hfull|Hmore].
      * injection Hf as <- <-.
        rewrite recv_loop_done by (cbn [to_read]; exact Hfull).
        eexists. eexists. split; [reflexivity|].
        cbn [received to_read List.concat bytes_read app].
        rewrite !app_nil_r. repeat split; lia.
      * destruct (fed (_socknum self) (_timeout self) n (need - len d) t w3)
          as [[ds' w'']|] eqn:Ef; [|discriminate].
        injection Hf as <- <-.
        destruct (IH self
                     (after st w3
                        [Call_socket_available (_socknum self) a;
                         Call_monotonic t;
                         Call_socket_read (_socknum self) (Z.min need a) d])
                     (need - len d) t (rcv ++ [d]) ds' w'' Hmore Ef fuel
                     ltac:(lia))
          as (evs & v & Hrun & Hrcv & Hto & Hdone & Hb).
        rewrite Hrun, after_after.
        eexists. exists v. split; [reflexivity|].
        cbn [List.concat app bytes_read].
        rewrite Hrcv, Hto, Hb, len_app, <- app_assoc.
        repeat split; lia.
  - rewrite called_after.
    destruct (Qgt_bool (_timeout self) 0) eqn:ET.
    + unfold call_monotonic. cbn [_the_interface after].
      destruct (time_monotonic w1) as [t' w4] eqn:Et'.
      rewrite called_after, after_after. cbn [app stamp].
      destruct (Qgt_bool (float_sub t' stamp0) (_timeout self)); [discriminate|].
      destruct (IH self
                   (after st w4 [Call_socket_available (_socknum self) a;
                                 Call_monotonic t'])
                   need stamp0 rcv ds w' Hneed Hf fuel ltac:(lia))
        as (evs & v & Hrun & Hrcv & Hto & Hdone & Hb).
      rewrite Hrun, after_after.
      eexists. exists v. split; [reflexivity|].
      cbn [app bytes_read]. repeat split; assumption.
    + destruct (IH self
                   (after st w1 [Call_socket_available (_socknum self) a])
                   need stamp0 rcv ds w' Hneed Hf fuel ltac:(lia))
        as (evs & v & Hrun & Hrcv & Hto & Hdone & Hb).
      rewrite Hrun, after_after.
      eexists. exists v. split; [reflexivity|].
      cbn [app bytes_read]. repeat split; assumption.
Qed.

(** X15: bounded mode, served.  When fewer than [bufsize] bytes are
    buffered and the interface, polled by the wait, hands over the
    missing bytes (or more) before the timeout, if there is one, has
    passed since the last arrival, [recv(bufsize)] returns the first
    [bufsize] of the bytes buffered and read, exactly [bufsize] bytes,
    and keeps in the buffer what was read beyond them. *)
Theorem recv_returns_bufsize_when_fed
    self st (bufsize : Z) (n : nat) (t0 : Q) (w0 : W)
    (ds : list bytes) (w' : W) :
  len (_buffer self) < bufsize ->
  time_monotonic (_the_interface st) = (t0, w0) ->
  fed (_socknum self) (_timeout self) n
      (bufsize - len (_buffer self)) t0 w0 = Some (ds, w') ->
  forall fuel, (n <= fuel)%nat ->
  exists evs,
    recv fuel self bufsize st
    = Some (firstn (Z.to_nat bufsize) (_buffer self ++ List.concat ds),
            set_buffer self
              (skipn (Z.to_nat bufsize) (_buffer self ++ List.concat ds)),
            after st w' evs)
    /\ len (firstn (Z.to_nat bufsize) (_buffer self ++ List.concat ds))
       = bufsize
    /\ bytes_read evs = List.concat ds.
Proof.
  intros Hshort Et Hf fuel Hfuel.
  pose proof (len_nonneg (_buffer self)) as Hnn.
  unfold recv, call_monotonic. rewrite Et.
  destruct (Z.eqb_spec bufsize 0) as [|_]; [lia|].
  destruct (recv_loop_fed n self (called st w0 (Call_monotonic t0))
              (bufsize - len (_buffer self)) t0 [] ds w' ltac:(lia) Hf
              fuel Hfuel)
    as (evs & v & Hrun & Hrcv & Hto & Hdone & Hb).
  rewrite Hrun, Hrcv, called_after, after_after. cbn [app].
  set (buf := _buffer self ++ List.concat ds).
  assert (Hlen : bufsize <= len buf) by (subst buf; rewrite len_app; lia).
  assert (Hfirst : len (firstn (Z.to_nat bufsize) buf) = bufsize)
    by (unfold len in *; rewrite length_firstn; lia).
  exists (Call_monotonic t0 :: evs).
  repeat split; try assumption.
  destruct (Z.eqb_spec (len buf) bufsize) as [Heq|Hne].
  - rewrite firstn_all2, skipn_all2 by (unfold len in Heq; lia).
    reflexivity.
  - rewrite slice_to_firstn, slice_from_skipn by lia. reflexivity.
Qed.

End Slots.

(** A socket reads from its slot and gives up. *)
Lemma socket_methods_keep_to_their_slot_witness :
  let self := a_socket [] 1%Q in
  let st := fresh [] (modem (at_time 1%Q (bytes_of "AB"))) in
  exists st' evs w',
    run 3 (Op_readline self) st = Some st'
    /\ st' = after st w' evs
    /\ forallb (on_slot (_socknum self)) evs = true.
Proof.
  intros self st.
  destruct (run 3 (Op_readline self) st) as [st'|] eqn:E;
    [|vm_compute in E; discriminate E].
  destruct (socket_methods_keep_to_their_slot 3 (Op_readline self) self st st'
              eq_refl E) as (evs & w' & Hst & Hall).
  exists st', evs, w'. repeat split; assumption.
Defined.

(** "xy" is buffered, 4 bytes are asked for with a timeout of 2 seconds;
    "A" arrives after 1 second and "BC" after 3. *)
Lemma recv_returns_bufsize_when_fed_witness :
  let self := a_socket (bytes_of "xy") 2%Q in
  let st := fresh [] (modem (at_time 1%Q (bytes_of "A")
                             ++ at_time 3%Q (bytes_of "BC"))) in
  exists w' evs,
    recv 2 self 4 st
    = Some (firstn 4 (bytes_of "xy" ++ List.concat [bytes_of "A"; bytes_of "B"]),
            set_buffer self
              (skipn 4 (bytes_of "xy"
                        ++ List.concat [bytes_of "A"; bytes_of "B"])),
            after st w' evs)
    /\ len (firstn 4 (bytes_of "xy"
                      ++ List.concat [bytes_of "A"; bytes_of "B"])) = 4.
Proof.
  intros self st.
  edestruct (recv_returns_bufsize_when_fed self st 4 2)
    as (evs & Hrun & Hlen & _).
  - reflexivity.
  - reflexivity.
  - vm_compute. reflexivity.
  - apply le_n.
  - eexists. exists evs. split; [exact Hrun | exact Hlen].
Defined.
